(** * afdver-Bot web API: ingest, links and stats handlers

    A shallow embedding of the serverless handlers of the repository
    (the ingest handler with its in-memory rate limiter and URL extraction,
    the paginated links reader and the statistics aggregator), with the
    properties the specification states about them.

    Conventions
    - JavaScript strings are [string]s; a value that may be [undefined] or
      [null] is an [option]; JavaScript truthiness of such a value is
      [Js.truthy] (present and not the empty string).
    - Timestamps ([Date.now()], [new Date()]) are integers [Z], milliseconds.
    - The module-level [rateLimitMap] is a [gmap string (list Z)] threaded
      through the calls; the links collection is a [gmap string Link] keyed
      by [url].
    - A storage call that throws returns [None]; the [catch] of the
      handler turns it into the 500 response, after the calls issued up to
      that point. *)

From Stdlib Require Import ZArith Ascii String.
From stdpp Require Import gmap strings list fin_maps.

Local Open Scope string_scope.
Local Open Scope list_scope.
Local Open Scope Z_scope.

(* ===================================================================== *)
(** ** JavaScript primitives used by the handlers *)
(* ===================================================================== *)

Module Js.

(** Truthiness of a string that may be [undefined]/[null]. *)
Definition truthy (v : option string) : bool :=
  match v with
  | Some s => negb (String.eqb s "")
  | None => false
  end.

(** [a || b] on possibly absent strings. *)
Definition or_else (a b : option string) : option string :=
  if truthy a then a else b.

(** [s.startsWith(p)] *)
Definition startsWith (p s : string) : bool := String.prefix p s.

(** [s.slice(n)] for [0 <= n] *)
Definition slice (n : nat) (s : string) : string :=
  String.substring n (String.length s - n) s.

(** [s.split('.')[0]]: the part of [s] before its first ['.'], all of [s]
    when it has none. *)
Fixpoint split_dot_first (s : string) : string :=
  match s with
  | EmptyString => EmptyString
  | String c r =>
      if Ascii.eqb c "."%char then EmptyString
      else String c (split_dot_first r)
  end.

(** [Array.from(new Set(l))], and the distinct values an accumulating
    [$addToSet] keeps: the distinct elements in order of first
    occurrence. *)
Fixpoint set_order {A} `{EqDecision A} (seen l : list A) : list A :=
  match l with
  | [] => []
  | x :: r =>
      if bool_decide (x ∈ seen) then set_order seen r
      else x :: set_order (x :: seen) r
  end.

Definition distinct {A} `{EqDecision A} (l : list A) : list A :=
  set_order [] l.

End Js.

(* ===================================================================== *)
(** ** Admission limiter: [checkRateLimit] *)
(* ===================================================================== *)

Module Limiter.

Definition defaultMaxRequests : Z := 100.
Definition defaultWindowMs : Z := 3600000.

(** [checkRateLimit(botId, maxRequests, windowMs)] with [Date.now()] read as
    [now]; returns the verdict and the map the call leaves behind. *)
Definition checkRateLimit (now : Z) (botId : string)
    (maxRequests windowMs : Z) (rateLimitMap : gmap string (list Z))
  : bool * gmap string (list Z) :=
  let windowStart := now - windowMs in
  let m1 :=
    match rateLimitMap !! botId with
    | Some _ => rateLimitMap
    | None => <[botId := []]> rateLimitMap
    end in
  let requests := default [] (m1 !! botId) in
  let validRequests := filter (λ time, windowStart < time) requests in
  if decide (maxRequests ≤ Z.of_nat (length validRequests))
  then (false, m1)
  else (true, <[botId := validRequests ++ [now]]> m1).

(** The call as the handler makes it, with both defaults. *)
Definition admission (now : Z) (botId : string) (m : gmap string (list Z)) :=
  checkRateLimit now botId defaultMaxRequests defaultWindowMs m.

(** The timestamps recorded for an identity ([[]] when it has no entry). *)
Definition record (botId : string) (m : gmap string (list Z)) : list Z :=
  default [] (m !! botId).

(** A run of calls for one identity at the given clock readings: the
    verdicts in order and the final map. *)
Fixpoint admissions (times : list Z) (botId : string)
    (m : gmap string (list Z)) : list bool * gmap string (list Z) :=
  match times with
  | [] => ([], m)
  | t :: rest =>
      let '(ok, m') := admission t botId m in
      let '(oks, m'') := admissions rest botId m' in
      (ok :: oks, m'')
  end.

(** The limiter in the words of the specification: timestamps older than
    [now - window] are discarded (those at [now - window] or later remain),
    a remaining count of at least the quota denies without recording, and
    otherwise [now] is appended. *)
Definition admission_as_specified (now : Z) (botId : string)
    (quota window : Z) (m : gmap string (list Z))
  : bool * list Z :=
  let remaining := filter (λ t, ¬ (t < now - window)) (record botId m) in
  if decide (quota ≤ Z.of_nat (length remaining))
  then (false, record botId m)
  else (true, remaining ++ [now]).

End Limiter.

(* ===================================================================== *)
(** ** URL extraction: [URL_REGEX], the trailing trim and the [Set] *)
(* ===================================================================== *)

Module Extract.

(** Characters are code units below 256; among them the regular
    expression class [\s] holds TAB, LF, VT, FF, CR, SPACE and NBSP. *)
Definition is_space (c : ascii) : bool :=
  match nat_of_ascii c with
  | 9 | 10 | 11 | 12 | 13 | 32 | 160 => true
  | _ => false
  end%nat.

(** An ASCII letter of the pattern under the [i] flag. *)
Definition lower (c : ascii) : ascii :=
  let n := nat_of_ascii c in
  if ((65 <=? n) && (n <=? 90))%nat then ascii_of_nat (n + 32) else c.

Definition ci_eqb (p c : ascii) : bool := Ascii.eqb p (lower c).

(** [lit_ci p s]: [s] starts with the lower-case literal [p] up to case;
    returns what follows it. *)
Fixpoint lit_ci (p s : string) : option string :=
  match p with
  | EmptyString => Some s
  | String pc pr =>
      match s with
      | EmptyString => None
      | String c r => if ci_eqb pc c then lit_ci pr r else None
      end
  end.

(** Length of the longest prefix made of [\S] characters. *)
Fixpoint nonspace_run (s : string) : nat :=
  match s with
  | EmptyString => O
  | String c r => if is_space c then O else S (nonspace_run r)
  end.

(** [:\/\/\S+] at the head of [s]: the number of characters it takes. *)
Definition tail_at (s : string) : option nat :=
  match lit_ci "://" s with
  | Some r =>
      match nonspace_run r with
      | O => None
      | S k => Some (3 + S k)%nat
      end
  | None => None
  end.

(** [https?:\/\/\S+] at the head of [s]: the length of the match. The
    optional [s] is tried first and given back when the rest fails. *)
Definition match_url_at (s : string) : option nat :=
  match lit_ci "http" s with
  | None => None
  | Some r =>
      let without_s := option_map (λ n, (4 + n)%nat) (tail_at r) in
      match r with
      | String c r' =>
          if ci_eqb "s"%char c then
            match tail_at r' with
            | Some n => Some (5 + n)%nat
            | None => without_s
            end
          else without_s
      | EmptyString => without_s
      end
  end.

(** The global scan: leftmost matches, each search resuming where the
    previous match ended. [skip] counts the characters of the current
    match still to pass over. *)
Fixpoint scan (s : string) (skip : nat) : list string :=
  match s with
  | EmptyString => []
  | String _ r =>
      match skip with
      | S k => scan r k
      | O =>
          match match_url_at s with
          | Some n => String.substring 0 n s :: scan r (n - 1)
          | None => scan r 0
          end
      end
  end.

(** [text.match(URL_REGEX) || []] *)
Definition match_all (text : string) : list string := scan text 0.

(** The character class of the trim: full stop, comma, closing
    parenthesis, semicolon, closing bracket, double quote, apostrophe. *)
Definition is_trailer (c : ascii) : bool :=
  match nat_of_ascii c with
  | 46 | 44 | 41 | 59 | 93 | 34 | 39 => true
  | _ => false
  end%nat.

(** The [replace] of the handler, one or more characters of the class
    anchored at the end of [u], replaced by the empty string: the maximal
    run of trailer characters at the end of [u] is removed. *)
Fixpoint trim_trailing (u : string) : string :=
  match u with
  | EmptyString => EmptyString
  | String c r =>
      let r' := trim_trailing r in
      if String.eqb r' "" && is_trailer c then EmptyString
      else String c r'
  end.

(** Every character of [s] is in the class of the trim. *)
Fixpoint all_trailers (s : string) : bool :=
  match s with
  | EmptyString => true
  | String c r => is_trailer c && all_trailers r
  end.

Fixpoint last_char (s : string) : option ascii :=
  match s with
  | EmptyString => None
  | String c EmptyString => Some c
  | String _ r => last_char r
  end.

(** [urls]: the trimmed matches, duplicates kept. *)
Definition urls_of (tweetText : string) : list string :=
  map trim_trailing (match_all tweetText).

(** [Array.from(new Set(urls))] *)
Definition unique (l : list string) : list string := Js.distinct l.

End Extract.

(* ===================================================================== *)
(** ** The links collection and the upsert of the ingest handler *)
(* ===================================================================== *)

Module Store.

(** A document of the links collection. [None] is [null] or an absent
    field. The storage identifier [_id] is left out: every reader projects
    it away. *)
Record Link := mkLink {
  url : string;
  created_at : option Z;
  first_seen_bot : option string;
  tweet_id : option string;
  author_id : option string;
  severity_score : Z;
  categories : list string;
  matched_keywords : list string;
  source_account : option string;
  collection_method : option string;
  tweet_text : option string;
  bot_id : option string;
  updated_at : option Z;
  seen_by_bots : option (list (option string))
}.

#[global] Instance Link_eq_dec : EqDecision Link.
Proof. solve_decision. Defined.

(** The [metadata] object of the handler, the argument of [$set]. *)
Record Metadata := mkMetadata {
  m_tweet_id : option string;
  m_author_id : option string;
  m_created_at : option Z;
  m_severity_score : Z;
  m_categories : list string;
  m_matched_keywords : list string;
  m_source_account : option string;
  m_collection_method : option string;
  m_tweet_text : option string;
  m_bot_id : string;
  m_updated_at : Z
}.

(** The argument of [$setOnInsert]. *)
Record OnInsert := mkOnInsert {
  i_url : string;
  i_created_at : Z;
  i_first_seen_bot : string
}.

(** What the driver reports: whether an [upsertedId] is present, and
    [modifiedCount]. *)
Record UpdateResult := mkUpdateResult {
  upserted : bool;
  modifiedCount : nat
}.

(** The document an upsert starts from: the equality of the query. *)
Definition from_query (u : string) : Link :=
  mkLink u None None None None 0 [] [] None None None None None None.

Definition apply_setOnInsert (i : OnInsert) (d : Link) : Link :=
  mkLink (i_url i) (Some (i_created_at i)) (Some (i_first_seen_bot i))
    (tweet_id d) (author_id d) (severity_score d) (categories d)
    (matched_keywords d) (source_account d) (collection_method d)
    (tweet_text d) (bot_id d) (updated_at d) (seen_by_bots d).

Definition apply_set (m : Metadata) (d : Link) : Link :=
  mkLink (url d) (m_created_at m) (first_seen_bot d)
    (m_tweet_id m) (m_author_id m) (m_severity_score m) (m_categories m)
    (m_matched_keywords m) (m_source_account m) (m_collection_method m)
    (m_tweet_text m) (Some (m_bot_id m)) (Some (m_updated_at m))
    (seen_by_bots d).

(** [$addToSet] of one value: appended unless already an element; an
    absent field becomes the one-element array. *)
Definition addToSet (b : string) (arr : option (list (option string)))
  : option (list (option string)) :=
  match arr with
  | None => Some [Some b]
  | Some l => if bool_decide (Some b ∈ l) then Some l else Some (l ++ [Some b])
  end.

Definition apply_addToSet (b : string) (d : Link) : Link :=
  mkLink (url d) (created_at d) (first_seen_bot d)
    (tweet_id d) (author_id d) (severity_score d) (categories d)
    (matched_keywords d) (source_account d) (collection_method d)
    (tweet_text d) (bot_id d) (updated_at d) (addToSet b (seen_by_bots d)).

(** The paths each operator of the handler's update document names: the
    keys of the [$setOnInsert] object, the keys of [metadata] under
    [$set] (a key whose value is [undefined] is sent as [null]), and the
    key of the [$addToSet] object. *)
Definition setOnInsert_paths : list string :=
  ["url"; "created_at"; "first_seen_bot"].

Definition set_paths : list string :=
  ["tweet_id"; "author_id"; "created_at"; "severity_score"; "categories";
   "matched_keywords"; "source_account"; "collection_method"; "tweet_text";
   "bot_id"; "updated_at"].

Definition addToSet_paths : list string := ["seen_by_bots"].

(** The paths named under more than one operator. *)
Definition conflicting_paths : list string :=
  List.filter (λ p, bool_decide (p ∈ set_paths ++ addToSet_paths))
    setOnInsert_paths
  ++ List.filter (λ p, bool_decide (p ∈ addToSet_paths)) set_paths.

(** What the server does with an update document it accepts, on a
    collection with the unique index on [url], as one indivisible step:
    [$setOnInsert] takes part only when no document matches the query,
    and a matching document that the update leaves equal to itself is not
    counted as modified. *)
Definition apply_update (u : string) (i : OnInsert) (m : Metadata) (b : string)
    (col : gmap string Link) : UpdateResult * gmap string Link :=
  match col !! u with
  | None =>
      let d := apply_addToSet b (apply_set m (apply_setOnInsert i (from_query u))) in
      (mkUpdateResult true 0, <[u := d]> col)
  | Some d =>
      let d' := apply_addToSet b (apply_set m d) in
      if decide (d' = d) then (mkUpdateResult false 0, col)
      else (mkUpdateResult false 1, <[u := d']> col)
  end.

(** [col.updateOne({url}, {$setOnInsert, $set, $addToSet}, {upsert: true})].
    The server validates the update document before it looks at the
    collection and refuses one that names a path under two operators
    (ConflictingUpdateOperators): the call then throws, [None], and
    nothing is stored. *)
Definition updateOne (u : string) (i : OnInsert) (m : Metadata) (b : string)
    (col : gmap string Link) : option (UpdateResult * gmap string Link) :=
  match conflicting_paths with
  | [] => Some (apply_update u i m b col)
  | _ :: _ => None
  end.

(** The document stored under [u] once an accepted upsert has run, from
    the document found there before ([None] when there was none). *)
Definition upserted_doc (u : string) (i : OnInsert) (m : Metadata)
    (b : string) (old : option Link) : Link :=
  apply_addToSet b
    (apply_set m
       (match old with
        | Some d => d
        | None => apply_setOnInsert i (from_query u)
        end)).

End Store.

(* ===================================================================== *)
(** ** The ingest handler *)
(* ===================================================================== *)

Module Ingest.
Import Store.

(** [req.body || {}]: the fields the handler reads, [None] for a field
    the request does not carry. [b_created_at] is the instant
    [new Date(body.created_at)] denotes for a truthy [body.created_at],
    [None] otherwise. *)
Record Body := mkBody {
  b_tweet_text : option string;
  b_tweet_id : option string;
  b_author_id : option string;
  b_created_at : option Z;
  b_severity_score : option Z;
  b_categories : option (list string);
  b_matched_keywords : option (list string);
  b_source_account : option string;
  b_collection_method : option string
}.

Record Request := mkRequest {
  method : string;
  authorization : option string;
  ip : option string;
  body : Body
}.

(** [process.env] *)
Record Env := mkEnv {
  MONGODB_URI : option string;
  VALID_TOKENS : option string
}.

(** A call issued to the collection. *)
Inductive StorageCall :=
| CreateIndex (key : string)
| UpdateOne (url : string).

(** What a call can change: the module-level [rateLimitMap], the links
    collection, and the log of the calls issued to the collection so far. *)
Record State := mkState {
  rateLimitMap : gmap string (list Z);
  links : gmap string Link;
  calls : list StorageCall
}.

Inductive Response :=
| MethodNotAllowed                       (* 405 *)
| BearerRequired                         (* 401, Bearer token required *)
| RateLimitExceeded                      (* 429 *)
| InvalidToken                           (* 401, Invalid token *)
| MissingFields                          (* 400 *)
| NoUrls                                 (* 200, inserted: 0, with message *)
| Ingested (inserted updated processed_urls : nat) (bot_id : string) (* 200 *)
| ServerError.                           (* 500 *)

(** [s.split(',')] *)
Fixpoint split_comma (s : string) : list string :=
  match s with
  | EmptyString => [EmptyString]
  | String c r =>
      if Ascii.eqb c ","%char then EmptyString :: split_comma r
      else
        match split_comma r with
        | h :: t => String c h :: t
        | [] => [String c EmptyString]
        end
  end.

(** [t.trim()] is truthy: [t] has a character that is not white space. *)
Fixpoint trim_truthy (t : string) : bool :=
  match t with
  | EmptyString => false
  | String c r => negb (Extract.is_space c) || trim_truthy r
  end.

(** [(process.env.VALID_TOKENS || '').split(',').filter(t => t.trim())] *)
Definition validTokens (env : Env) : list string :=
  List.filter trim_truthy
    (split_comma (default "" (Js.or_else (VALID_TOKENS env) (Some "")))).

(** [token.split('.')[0] || req.ip || 'anonymous'] *)
Definition derive_botId (token : string) (req_ip : option string) : string :=
  default "anonymous"
    (Js.or_else (Js.or_else (Some (Js.split_dot_first token)) req_ip)
                (Some "anonymous")).

Definition metadata_of (b : Body) (tweetText botId : string) (now : Z)
  : Metadata :=
  mkMetadata (b_tweet_id b) (b_author_id b) (b_created_at b)
    (default 0 (b_severity_score b))
    (default [] (b_categories b))
    (default [] (b_matched_keywords b))
    (b_source_account b)
    (Some (default "api_upload" (Js.or_else (b_collection_method b) (Some "api_upload"))))
    (Some tweetText) botId now.

(** The loop over [Array.from(new Set(urls))]: one [updateOne] per URL,
    counting inserts and modifications. Each call is written to the log
    as it is issued; a call that throws ends the loop, [None], with the
    collection and the log as they are at that point. *)
Fixpoint merge_all (us : list string) (b : Body) (tweetText botId : string)
    (now : Z) (inserted updated : nat) (col : gmap string Link)
    (log : list StorageCall)
  : option (nat * nat) * gmap string Link * list StorageCall :=
  match us with
  | [] => (Some (inserted, updated), col, log)
  | u :: rest =>
      let log' := log ++ [UpdateOne u] in
      match updateOne u (mkOnInsert u now botId)
              (metadata_of b tweetText botId now) botId col with
      | None => (None, col, log')
      | Some (r, col') =>
          if upserted r then
            merge_all rest b tweetText botId now (S inserted) updated col' log'
          else if (0 <? modifiedCount r)%nat then
            merge_all rest b tweetText botId now inserted (S updated) col' log'
          else
            merge_all rest b tweetText botId now inserted updated col' log'
      end
  end.

(** [req.headers.authorization || ""], [auth.slice(7)] and the derived
    [botId] of a request. *)
Definition auth_of (req : Request) : string :=
  default "" (Js.or_else (authorization req) (Some "")).

Definition token_of (req : Request) : string := Js.slice 7 (auth_of req).

Definition botId_of (req : Request) : string :=
  derive_botId (token_of req) (ip req).

(** The text the extraction runs on. *)
Definition text_of (req : Request) : string :=
  default "" (b_tweet_text (body req)).

(** The four [createIndex] calls of the inner [try], taken to succeed (a
    failure is caught and logged there, and skips the calls after it). *)
Definition ensure_indexes : list StorageCall :=
  [CreateIndex "url"; CreateIndex "tweet_id"; CreateIndex "created_at";
   CreateIndex "severity_score"].

(** [handler(req, res)]. [clock] is the reading of [Date.now()] inside
    [checkRateLimit], [now] the later [new Date()] of the merge loop. The
    response is paired with the state the call leaves behind. The
    connection to the database is taken to succeed when [MONGODB_URI] is
    set; [getClient] throws when it is not. Whatever throws inside the
    [try] is answered by the [catch] with 500, after the calls issued up
    to that point. *)
Definition handler (env : Env) (clock now : Z) (req : Request) (st : State)
  : Response * State :=
  if negb (String.eqb (method req) "POST") then (MethodNotAllowed, st) else
  let auth := auth_of req in
  if negb (Js.startsWith "Bearer " auth) then (BearerRequired, st) else
  let token := token_of req in
  let botId := botId_of req in
  let '(allowed, rl) :=
    Limiter.checkRateLimit clock botId Limiter.defaultMaxRequests
      Limiter.defaultWindowMs (rateLimitMap st) in
  let st1 := mkState rl (links st) (calls st) in
  if negb allowed then (RateLimitExceeded, st1) else
  if negb (bool_decide (token ∈ validTokens env)) then (InvalidToken, st1) else
  let b := body req in
  if negb (Js.truthy (b_tweet_text b)) || negb (Js.truthy (b_tweet_id b))
  then (MissingFields, st1) else
  let tweetText := text_of req in
  let urls := Extract.urls_of tweetText in
  match urls with
  | [] => (NoUrls, st1)
  | _ :: _ =>
      if negb (Js.truthy (MONGODB_URI env)) then (ServerError, st1) else
      let '(counts, col, log) :=
        merge_all (Extract.unique urls) b tweetText botId now 0 0 (links st)
          (calls st ++ ensure_indexes) in
      match counts with
      | Some (inserted, updated) =>
          (Ingested inserted updated (length urls) botId, mkState rl col log)
      | None => (ServerError, mkState rl col log)
      end
  end.

(** The request passes every guard of the handler up to the extraction
    of URLs, and the database is configured. *)
Definition accepts (env : Env) (clock : Z) (req : Request) (st : State)
  : bool :=
  String.eqb (method req) "POST"
  && Js.startsWith "Bearer " (auth_of req)
  && fst (Limiter.checkRateLimit clock (botId_of req)
            Limiter.defaultMaxRequests Limiter.defaultWindowMs
            (rateLimitMap st))
  && bool_decide (token_of req ∈ validTokens env)
  && Js.truthy (b_tweet_text (body req))
  && Js.truthy (b_tweet_id (body req))
  && Js.truthy (MONGODB_URI env).

(** The failures the specification calls authentication and validation
    failures. *)
Definition is_auth_or_validation_failure (r : Response) : bool :=
  match r with
  | BearerRequired | InvalidToken | MissingFields => true
  | _ => false
  end.

(** The [updateOne] calls of a log, in order. *)
Definition merge_calls (l : list StorageCall) : list string :=
  omap (λ c, match c with UpdateOne u => Some u | CreateIndex _ => None end) l.

End Ingest.

(* ===================================================================== *)
(** ** The links reader *)
(* ===================================================================== *)

Module Links.
Import Store.

(** [req.query]: [None] for a parameter the request does not carry. *)
Record Query := mkQuery {
  page : option string;
  limit : option string;
  search : option string;
  severity : option string;
  dateFrom : option string;
  dateTo : option string
}.

Definition digit_val (c : ascii) : option Z :=
  let n := nat_of_ascii c in
  if ((48 <=? n) && (n <=? 57))%nat then Some (Z.of_nat (n - 48)) else None.

(** The value of the longest prefix of decimal digits; [acc] is [None]
    until a digit has been read. *)
Fixpoint digits (s : string) (acc : option Z) : option Z :=
  match s with
  | EmptyString => acc
  | String c r =>
      match digit_val c with
      | Some d => digits r (Some (10 * default 0 acc + d))
      | None => acc
      end
  end.

Fixpoint skip_space (s : string) : string :=
  match s with
  | EmptyString => EmptyString
  | String c r => if Extract.is_space c then skip_space r else s
  end.

(** The integer a Number holds for the mathematical integer [n]: [n]
    itself up to 53 bits, beyond that the nearest integer with a 53-bit
    significand, a tie going to the even significand. *)
Definition to_double (n : Z) : Z :=
  let a := Z.abs n in
  let e := Z.log2 a - 52 in
  if e <=? 0 then n else
  let q := Z.shiftr a e in
  let r := a - Z.shiftl q e in
  let half := Z.shiftl 1 (e - 1) in
  let q' := if (half <? r) || ((r =? half) && Z.odd q) then q + 1 else q in
  Z.sgn n * Z.shiftl q' e.

(** [parseInt(s, 10)], [None] for [NaN]. The value of the digits is
    rounded to a Number; a value beyond the largest finite Number, which
    takes more than 308 digits and is [Infinity] to the code, is rounded
    here like the others. *)
Definition parseInt (s : string) : option Z :=
  option_map to_double
    match skip_space s with
    | String c r =>
        if Ascii.eqb c "-"%char then option_map Z.opp (digits r None)
        else if Ascii.eqb c "+"%char then digits r None
        else digits (String c r) None
    | EmptyString => None
    end.

(** [parseInt(s, 10) || d] *)
Definition parseInt_or (s : string) (d : Z) : Z :=
  match parseInt s with
  | Some 0 | None => d
  | Some n => n
  end.

(** [s.trim()] *)
Fixpoint trim_end (s : string) : string :=
  match s with
  | EmptyString => EmptyString
  | String c r =>
      let r' := trim_end r in
      if String.eqb r' "" && Extract.is_space c then EmptyString
      else String c r'
  end.

Definition trim (s : string) : string := trim_end (skip_space s).

(** The [filter] object handed to the collection. *)
Record Filter := mkFilter {
  f_url_regex : option string;
  f_severity_gte : option Z;
  f_severity_lt : option Z;
  f_created_gte : option Z;
  f_created_lte : option Z
}.

Inductive Response :=
| NotConfigured                                   (* links: [], with a note *)
| Legacy (links : list Link)                      (* { links } *)
| Paginated (links : list Link)
    (currentPage totalPages totalItems itemsPerPage : Z)
    (hasNext hasPrev : bool)
    (f_search f_severity f_dateFrom f_dateTo : string).

Definition is_legacy (r : Response) : bool :=
  match r with Legacy _ => true | _ => false end.

Definition is_paginated (r : Response) : bool :=
  match r with Paginated _ _ _ _ _ _ _ _ _ _ _ => true | _ => false end.

Definition response_links (r : Response) : list Link :=
  match r with
  | NotConfigured => []
  | Legacy l => l
  | Paginated l _ _ _ _ _ _ _ _ _ _ => l
  end.

(** [a] is not after [b] under [{ updated_at: -1, created_at: -1 }];
    [null] sorts below every date. *)
Definition key_leb (a b : option Z) : bool :=
  match a, b with
  | None, _ => true
  | Some _, None => false
  | Some x, Some y => x <=? y
  end.

Definition comes_first (a b : Link) : bool :=
  if decide (updated_at a = updated_at b)
  then key_leb (created_at b) (created_at a)
  else key_leb (updated_at b) (updated_at a).

Fixpoint insert_sorted (d : Link) (l : list Link) : list Link :=
  match l with
  | [] => [d]
  | x :: r => if comes_first d x then d :: l else x :: insert_sorted d r
  end.

Definition sort (l : list Link) : list Link := foldr insert_sorted [] l.

Section Handler.
(** The storage engine's case-insensitive regular-expression test of a
    pattern against a string, and the instant an ISO date-time string
    denotes. *)
Variable regex_test : string → string → bool.
Variable Date_of : string → Z.

Definition in_opt (o : option Z) (P : Z → bool) : bool :=
  match o with None => true | Some b => P b end.

Definition matches (f : Filter) (d : Link) : bool :=
  match f_url_regex f with None => true | Some r => regex_test r (url d) end
  && in_opt (f_severity_gte f) (λ b, b <=? severity_score d)
  && in_opt (f_severity_lt f) (λ b, severity_score d <? b)
  && in_opt (f_created_gte f)
       (λ b, match created_at d with Some t => b <=? t | None => false end)
  && in_opt (f_created_lte f)
       (λ b, match created_at d with Some t => t <=? b | None => false end).

Definition build_filter (search severity dateFrom dateTo : string) : Filter :=
  mkFilter
    (if negb (String.eqb (trim search) "") then Some (trim search) else None)
    (if String.eqb severity "high" then Some 7
     else if String.eqb severity "medium" then Some 4 else None)
    (if String.eqb severity "medium" then Some 7
     else if String.eqb severity "low" then Some 4 else None)
    (if negb (String.eqb dateFrom "")
     then Some (Date_of (String.append dateFrom "T00:00:00.000Z")) else None)
    (if negb (String.eqb dateTo "")
     then Some (Date_of (String.append dateTo "T23:59:59.999Z")) else None).

(** [col.find(filter)] *)
Definition find (f : Filter) (col : gmap string Link) : list Link :=
  List.filter (matches f) (map snd (map_to_list col)).

(** The filter of a request, its parameters defaulted to the empty
    string, and the documents it selects. *)
Definition filter_of (q : Query) : Filter :=
  build_filter (default "" (search q)) (default "" (severity q))
    (default "" (dateFrom q)) (default "" (dateTo q)).

Definition matching (q : Query) (col : gmap string Link) : list Link :=
  find (filter_of q) col.

(** [handler(req, res)] of the links endpoint. [skip] and [totalPages]
    are computed on integers, which is what the Numbers of the code hold
    as long as they stay below 2^53. *)
Definition handler (mongodb_uri : option string) (q : Query)
    (col : gmap string Link) : Response :=
  if negb (Js.truthy mongodb_uri) then NotConfigured else
  let page_ := default "1" (page q) in
  let limit_ := default "50" (limit q) in
  let search_ := default "" (search q) in
  let severity_ := default "" (severity q) in
  let dateFrom_ := default "" (dateFrom q) in
  let dateTo_ := default "" (dateTo q) in
  let pageNum := Z.max 1 (parseInt_or page_ 1) in
  let limitNum := Z.min 100 (Z.max 1 (parseInt_or limit_ 50)) in
  let skip := (pageNum - 1) * limitNum in
  let found := matching q col in
  let totalCount := Z.of_nat (length found) in
  let totalPages := (totalCount + limitNum - 1) / limitNum in
  let isLegacyRequest :=
    negb (Js.truthy (page q)) && negb (Js.truthy (limit q))
    && (totalCount <=? 500) in
  if isLegacyRequest then Legacy (take 500 (sort found))
  else
    Paginated (take (Z.to_nat limitNum) (drop (Z.to_nat skip) (sort found)))
      pageNum totalPages totalCount limitNum
      (pageNum <? totalPages) (1 <? pageNum)
      (trim search_) severity_ dateFrom_ dateTo_.
End Handler.

(** A request supplies a parameter when its query carries the key. *)
Definition supplied (v : option string) : bool :=
  match v with Some _ => true | None => false end.

End Links.

(* ===================================================================== *)
(** ** The statistics aggregator *)
(* ===================================================================== *)

Module Stats.
Import Store.

(** The single document the [$group] stage yields. *)
Record Group := mkGroup {
  totalLinks : nat;
  severitySum : Z;
  todayLinks : nat;
  uniqueBots : list (option string);
  uniqueSeenByBots : list (option (list (option string)))
}.

(** [col.aggregate([{ $group }]).toArray()]: no document for an empty
    collection, otherwise the accumulators over all documents. *)
Definition aggregate (startOfToday : Z) (docs : list Link) : option Group :=
  match docs with
  | [] => None
  | _ :: _ =>
      Some (mkGroup
        (length docs)
        (foldr (λ d acc, severity_score d + acc) 0 docs)
        (length (List.filter
           (λ d, match created_at d with
                 | Some t => startOfToday <=? t
                 | None => false
                 end) docs))
        (Js.distinct (map bot_id docs))
        (Js.distinct (map seen_by_bots docs)))
  end.

(** [if (botId) allBots.add(botId)] *)
Definition add_bot (botId : option string) (allBots : gset string)
  : gset string :=
  match botId with
  | Some b => if Js.truthy botId then {[ b ]} ∪ allBots else allBots
  | None => allBots
  end.

(** [arr.forEach(botId => ...)] on the set being built *)
Definition add_bots (arr : list (option string)) (allBots : gset string)
  : gset string :=
  foldl (λ acc b, add_bot b acc) allBots arr.

(** The two [forEach] passes over [uniqueBots] and [uniqueSeenByBots]. *)
Definition collect_bots (g : Group) : gset string :=
  let s1 := add_bots (uniqueBots g) ∅ in
  foldl (λ acc botArray,
           match botArray with
           | Some arr => add_bots arr acc
           | None => acc
           end) s1 (uniqueSeenByBots g).

(** The success payload; [avgSeverity] is the exact quotient
    [avgNum / avgDen]. *)
Record Payload := mkPayload {
  p_totalLinks : nat;
  p_activeBots : nat;
  p_avgNum : Z;
  p_avgDen : nat;
  p_todayLinks : nat
}.

Inductive Response :=
| MethodNotAllowed
| ServerError
| Ok (p : Payload).

(** [handler(req, res)] of the stats endpoint; [startOfToday] is local
    midnight of the current date. *)
Definition handler (mongodb_uri : option string) (method : string)
    (startOfToday : Z) (col : gmap string Link) : Response :=
  if negb (String.eqb method "GET") then MethodNotAllowed else
  if negb (Js.truthy mongodb_uri) then ServerError else
  match aggregate startOfToday (map snd (map_to_list col)) with
  | None => Ok (mkPayload 0 0 0 1 0)
  | Some g =>
      Ok (mkPayload (totalLinks g) (size (collect_bots g))
            (severitySum g) (totalLinks g) (todayLinks g))
  end.

Definition activeBots (r : Response) : option nat :=
  match r with Ok p => Some (p_activeBots p) | _ => None end.

(** The identities a record holds: its [bot_id] and the elements of its
    [seen_by_bots]. *)
Definition identities_of (d : Link) : list (option string) :=
  bot_id d :: default [] (seen_by_bots d).

(** The union, over all records, of the identities they hold, those that
    [excluded] names left out. *)
Definition union_of_identities (excluded : option string → bool)
    (docs : list Link) : gset string :=
  list_to_set
    (omap (λ o, if excluded o then None else o) (docs ≫= identities_of)).

(** Null or absent, the exclusion of the specification. *)
Definition null_or_absent (o : option string) : bool :=
  match o with None => true | Some _ => false end.

(** Falsy, the exclusion of the handler: null, absent or the empty
    string. *)
Definition falsy (o : option string) : bool := negb (Js.truthy o).

End Stats.

(* ===================================================================== *)
(** ** The bot registration handler *)
(* ===================================================================== *)

Module Register.

(** [c.toLowerCase()] on one code unit below 256: the ASCII capitals and
    the accented capitals of Latin-1 move up by 32. *)
Definition toLowerCase_char (c : ascii) : ascii :=
  let n := nat_of_ascii c in
  if ((65 <=? n) && (n <=? 90))%nat then ascii_of_nat (n + 32)
  else if ((192 <=? n) && (n <=? 222) && negb (n =? 215))%nat
       then ascii_of_nat (n + 32)
  else c.

(** The class [a-z0-9]. *)
Definition is_lower_alnum (c : ascii) : bool :=
  let n := nat_of_ascii c in
  (((97 <=? n) && (n <=? 122)) || ((48 <=? n) && (n <=? 57)))%nat.

(** [botName.toLowerCase().replace(/[^a-z0-9]/g, '')] *)
Fixpoint normalize (botName : string) : string :=
  match botName with
  | EmptyString => EmptyString
  | String c r =>
      let c' := toLowerCase_char c in
      if is_lower_alnum c' then String c' (normalize r) else normalize r
  end.

(** The template literal joining [botId], a full stop and [tokenSuffix]. *)
Definition fullToken (botId tokenSuffix : string) : string :=
  String.append botId (String "."%char tokenSuffix).

(** A document of the [registered_bots] collection. *)
Record BotRecord := mkBotRecord {
  r_botId : string;
  r_botName : string;
  r_description : string;
  r_owner : string;
  r_token : string;
  r_createdAt : Z;
  r_lastSeen : option Z;
  r_isActive : bool;
  r_totalSubmissions : Z;
  r_lastSubmission : option Z
}.

Record Request := mkRequest {
  method : string;
  authorization : option string;
  b_botName : option string;
  b_description : option string;
  b_owner : option string
}.

Record Env := mkEnv {
  MONGODB_URI : option string;
  ADMIN_SECRET : option string
}.

Inductive Response :=
| MethodNotAllowed                        (* 405 *)
| AdminRequired                           (* 401 *)
| MissingFields                           (* 400 *)
| Conflict                                (* 409 *)
| Created (botId token : string)          (* 201 *)
| ServerError.                            (* 500 *)

(** [botsCol.findOne({ botId })]: the collection has no unique index, it
    is a list of documents and the first match is returned. *)
Definition findOne (botId : string) (bots : list BotRecord)
  : option BotRecord :=
  List.find (λ r, String.eqb (r_botId r) botId) bots.

(** [handler(req, res)] of the registration endpoint. [tokenSuffix] is the
    hexadecimal rendering of the sixteen random bytes, [now] the reading
    of [new Date()]. *)
Definition handler (env : Env) (tokenSuffix : string) (now : Z)
    (req : Request) (bots : list BotRecord) : Response * list BotRecord :=
  if negb (String.eqb (method req) "POST") then (MethodNotAllowed, bots) else
  let auth := default "" (Js.or_else (authorization req) (Some "")) in
  if negb (Js.truthy (ADMIN_SECRET env))
     || negb (Js.startsWith "Bearer " auth)
     || negb (String.eqb (Js.slice 7 auth) (default "" (ADMIN_SECRET env)))
  then (AdminRequired, bots) else
  if negb (Js.truthy (b_botName req)) || negb (Js.truthy (b_owner req))
  then (MissingFields, bots) else
  let botName := default "" (b_botName req) in
  let botId := normalize botName in
  let token := fullToken botId tokenSuffix in
  if negb (Js.truthy (MONGODB_URI env)) then (ServerError, bots) else
  match findOne botId bots with
  | Some _ => (Conflict, bots)
  | None =>
      let botRecord :=
        mkBotRecord botId botName
          (default "" (Js.or_else (b_description req) (Some "")))
          (default "" (b_owner req)) token now None true 0 None in
      (Created botId token, bots ++ [botRecord])
  end.

End Register.

(* ===================================================================== *)
(** ** The first version of the links reader *)
(* ===================================================================== *)

Module LinksV1.
Import Store.

(** [a] is not after [b] under [{ updated_at: -1 }]. *)
Definition comes_first (a b : Link) : bool :=
  Links.key_leb (updated_at b) (updated_at a).

Fixpoint insert_sorted (d : Link) (l : list Link) : list Link :=
  match l with
  | [] => [d]
  | x :: r => if comes_first d x then d :: l else x :: insert_sorted d r
  end.

Definition sort (l : list Link) : list Link := foldr insert_sorted [] l.

Inductive Response :=
| NotConfigured                    (* links: [], with a note *)
| Newest (links : list Link).      (* { links } *)

(** [handler(req, res)]: the newest 500 links. *)
Definition handler (mongodb_uri : option string) (col : gmap string Link)
  : Response :=
  if negb (Js.truthy mongodb_uri) then NotConfigured
  else Newest (take 500 (sort (map snd (map_to_list col)))).

End LinksV1.

(* ===================================================================== *)
(** ** Vocabulary of the further properties *)
(* ===================================================================== *)

Module Terms.
Import Store.

(** The clock readings of the calls that were allowed, given the readings
    of all calls and their verdicts. *)
Fixpoint allowed_times (times : list Z) (verdicts : list bool) : list Z :=
  match times, verdicts with
  | t :: ts, v :: vs =>
      if v then t :: allowed_times ts vs else allowed_times ts vs
  | _, _ => []
  end.

(** The clock readings of a run come in the order of time. *)
Fixpoint nondecreasing (times : list Z) : Prop :=
  match times with
  | [] => True
  | t :: rest => Forall (λ x, t ≤ x) rest ∧ nondecreasing rest
  end.

(** Every document is stored under its own [url]. *)
Definition keyed_by_url (col : gmap string Link) : Prop :=
  ∀ u d, col !! u = Some d → url d = u.


(** The documents of a collection. *)
Definition docs (col : gmap string Link) : list Link :=
  map snd (map_to_list col).

(** [s] has the character [c]. *)
Fixpoint has_char (c : ascii) (s : string) : bool :=
  match s with
  | EmptyString => false
  | String x r => Ascii.eqb x c || has_char c r
  end.

(** Every character of [s] satisfies [p]. *)
Fixpoint all_chars (p : ascii → bool) (s : string) : bool :=
  match s with
  | EmptyString => true
  | String x r => p x && all_chars p r
  end.

(** Not in the class of white space; not in the class of the trim. *)
Definition not_space (c : ascii) : bool := negb (Extract.is_space c).
Definition not_trailer (c : ascii) : bool := negb (Extract.is_trailer c).

(** [s] begins with [http://] or [https://], letters in either case. *)
Definition has_scheme (s : string) : bool :=
  match Extract.lit_ci "http://" s, Extract.lit_ci "https://" s with
  | None, None => false
  | _, _ => true
  end.

(** The success response that carries counts. *)
Definition is_ingested (r : Ingest.Response) : bool :=
  match r with Ingest.Ingested _ _ _ _ => true | _ => false end.

(** The responses given before the request body is looked at. *)
Definition stops_at_gate (r : Ingest.Response) : bool :=
  match r with
  | Ingest.MethodNotAllowed | Ingest.BearerRequired
  | Ingest.RateLimitExceeded | Ingest.InvalidToken => true
  | _ => false
  end.

(** The responses given only after the database has been asked for. *)
Definition reaches_database (r : Ingest.Response) : bool :=
  match r with
  | Ingest.Ingested _ _ _ _ | Ingest.ServerError => true
  | _ => false
  end.

(** The 201 response of the registration. *)
Definition is_created (r : Register.Response) : bool :=
  match r with Register.Created _ _ => true | _ => false end.

(** The order of the links reader: [a] is not after [b] when its
    [updated_at] is later, or equal with a [created_at] not earlier. *)
Fixpoint ordered (l : list Link) : Prop :=
  match l with
  | [] => True
  | a :: r => Forall (λ b, Links.comes_first a b = true) r ∧ ordered r
  end.

End Terms.

(* ===================================================================== *)
(** * Properties *)
(* ===================================================================== *)

Module LimiterFacts.
Import Limiter.

Lemma checkRateLimit_verdict now botId q w m :
  let valid := filter (λ t, now - w < t) (record botId m) in
  fst (checkRateLimit now botId q w m)
    = bool_decide (Z.of_nat (length valid) < q).
Proof.
  unfold checkRateLimit, record.
  destruct (m !! botId) as [r|] eqn:E; cbn zeta.
  - rewrite E. cbn. case_decide; cbn; symmetry.
    + apply bool_decide_eq_false. lia.
    + apply bool_decide_eq_true. lia.
  - rewrite lookup_insert_eq. cbn. case_decide; cbn; symmetry.
    + apply bool_decide_eq_false. lia.
    + apply bool_decide_eq_true. lia.
Qed.

Lemma checkRateLimit_record now botId q w m :
  let valid := filter (λ t, now - w < t) (record botId m) in
  record botId (snd (checkRateLimit now botId q w m))
    = if bool_decide (Z.of_nat (length valid) < q)
      then valid ++ [now] else record botId m.
Proof.
  unfold checkRateLimit, record.
  destruct (m !! botId) as [r|] eqn:E; cbn zeta.
  - rewrite E. cbn. case_decide; cbn.
    + rewrite bool_decide_eq_false_2 by lia. by rewrite E.
    + rewrite bool_decide_eq_true_2 by lia. by rewrite lookup_insert_eq.
  - rewrite lookup_insert_eq. cbn. case_decide; cbn.
    + rewrite bool_decide_eq_false_2 by lia. by rewrite lookup_insert_eq.
    + rewrite bool_decide_eq_true_2 by lia. by rewrite lookup_insert_eq.
Qed.

Lemma checkRateLimit_other now botId q w m other :
  other ≠ botId →
  record other (snd (checkRateLimit now botId q w m)) = record other m.
Proof.
  intros Hne. unfold checkRateLimit, record.
  destruct (m !! botId) as [r|] eqn:E; cbn zeta.
  - rewrite E. cbn. case_decide; cbn; [done|].
    by rewrite lookup_insert_ne.
  - rewrite lookup_insert_eq. cbn. case_decide; cbn;
      by rewrite ?lookup_insert_ne.
Qed.

Lemma filter_all_kept (P : Z → Prop) `{∀ x, Decision (P x)} (l : list Z) :
  Forall P l → filter P l = l.
Proof.
  induction 1 as [|x l Hx _ IH]; [done|].
  rewrite filter_cons_True by done. by rewrite IH.
Qed.

Lemma filter_none_kept (P : Z → Prop) `{∀ x, Decision (P x)} (l : list Z) :
  Forall (λ x, ¬ P x) l → filter P l = [].
Proof.
  induction 1 as [|x l Hx _ IH]; [done|].
  by rewrite filter_cons_False.
Qed.

(** Calls made at instants of one window, on a record of that window,
    are all allowed while the quota lasts, and each is recorded. *)
Lemma admissions_within hi ts : ∀ botId m,
  Forall (λ t, hi - defaultWindowMs < t ≤ hi) (record botId m) →
  Forall (λ t, hi - defaultWindowMs < t ≤ hi) ts →
  (length (record botId m) + length ts ≤ 100)%nat →
  fst (admissions ts botId m) = replicate (length ts) true
  ∧ record botId (snd (admissions ts botId m)) = record botId m ++ ts.
Proof.
  induction ts as [|t ts IH]; intros botId m Hr Hts Hlen.
  - cbn. by rewrite app_nil_r.
  - apply Forall_cons in Hts as [Ht Hts]. cbn [admissions].
    pose proof (checkRateLimit_verdict t botId defaultMaxRequests
                  defaultWindowMs m) as Hv.
    pose proof (checkRateLimit_record t botId defaultMaxRequests
                  defaultWindowMs m) as Hrec.
    cbn zeta in Hv, Hrec. fold (admission t botId m) in Hv, Hrec.
    assert (Hkeep : filter (λ x, t - defaultWindowMs < x) (record botId m)
                    = record botId m).
    { apply filter_all_kept. eapply Forall_impl; [exact Hr|].
      cbn. intros x Hx. lia. }
    rewrite Hkeep in Hv, Hrec.
    rewrite bool_decide_eq_true_2 in Hv, Hrec
      by (cbn in Hlen; unfold defaultMaxRequests; lia).
    destruct (admission t botId m) as [ok m'] eqn:Ea. cbn in Hv, Hrec. subst ok.
    destruct (IH botId m') as [IH1 IH2].
    + rewrite Hrec. apply Forall_app. split; [done|]. by apply Forall_singleton.
    + done.
    + rewrite Hrec, length_app. cbn in *. lia.
    + destruct (admissions ts botId m') as [oks m''] eqn:Es. cbn in *.
      subst oks. split; [done|]. by rewrite IH2, Hrec, <- app_assoc.
Qed.

(** C4, as stated, fails at the window boundary. One hundred calls at the
    instants 0..99 ms are allowed; at [now = 3600000] the timestamp 0 is
    exactly [now - window], hence not older than it: the limiter of the
    specification keeps it, counts 100 and denies, while [checkRateLimit]
    drops it ([time > windowStart] is false), counts 99 and allows. *)
Lemma checkRateLimit_boundary_differs :
  ¬ (∀ (now : Z) (botId : string) (m : gmap string (list Z)),
       let r := checkRateLimit now botId defaultMaxRequests defaultWindowMs m in
       (fst r, record botId (snd r))
         = admission_as_specified now botId defaultMaxRequests defaultWindowMs m).
Proof.
  intros H.
  specialize (H 3600000 "bot"
                (snd (admissions (map Z.of_nat (seq 0 100)) "bot" ∅))).
  vm_compute in H. discriminate H.
Qed.

(** C4 (amended). For every identity and every call at clock reading
    [now], [checkRateLimit] keeps exactly the stored timestamps strictly
    newer than [now - window] (a timestamp equal to [now - window] is
    discarded with the older ones), denies without recording when at least
    [quota] remain, and otherwise records the kept timestamps followed by
    [now] and allows (window 3600000 ms, quota 100). Consequently, for an
    identity with no recorded timestamps, 100 calls at instants of one
    rolling hour ending at [now] are all allowed, the 101st call at [now]
    is denied and leaves the record as it was, and a call at any instant
    [later] by which the window has fully elapsed for all of them is
    allowed again. *)
Theorem checkRateLimit_sliding_window :
  (∀ (now : Z) (botId : string) (m : gmap string (list Z)),
     let valid := filter (λ t, now - defaultWindowMs < t) (record botId m) in
     let allowed := bool_decide (Z.of_nat (length valid) < defaultMaxRequests) in
     fst (admission now botId m) = allowed
     ∧ record botId (snd (admission now botId m))
         = (if allowed then valid ++ [now] else record botId m))
  ∧ (∀ (botId : string) (m : gmap string (list Z)) (ts : list Z) (now : Z),
     record botId m = [] →
     length ts = 100%nat →
     Forall (λ t, now - defaultWindowMs < t ≤ now) ts →
     let m100 := snd (admissions ts botId m) in
     let m101 := snd (admission now botId m100) in
     fst (admissions ts botId m) = replicate 100 true
     ∧ fst (admission now botId m100) = false
     ∧ record botId m101 = record botId m100
     ∧ ∀ later : Z,
         Forall (λ t, t + defaultWindowMs ≤ later) ts →
         fst (admission later botId m101) = true).
Proof.
  split.
  - intros now botId m. cbn zeta. split.
    + apply checkRateLimit_verdict.
    + apply checkRateLimit_record.
  - intros botId m ts now Hempty Hlen Hts. cbn zeta.
    destruct (admissions_within now ts botId m) as [Hoks Hrec].
    { rewrite Hempty. constructor. }
    { exact Hts. }
    { rewrite Hempty, Hlen. cbn. lia. }
    rewrite Hempty in Hrec. cbn in Hrec. rewrite Hlen in Hoks.
    set (m100 := snd (admissions ts botId m)) in *.
    pose proof (checkRateLimit_verdict now botId defaultMaxRequests
                  defaultWindowMs m100) as Hv.
    pose proof (checkRateLimit_record now botId defaultMaxRequests
                  defaultWindowMs m100) as Hr.
    cbn zeta in Hv, Hr. fold (admission now botId m100) in Hv, Hr.
    rewrite Hrec in Hv, Hr.
    assert (Hkeep : filter (λ t, now - defaultWindowMs < t) ts = ts).
    { apply filter_all_kept. eapply Forall_impl; [exact Hts|].
      cbn. intros x Hx. lia. }
    rewrite Hkeep, Hlen in Hv, Hr.
    rewrite bool_decide_eq_false_2 in Hv, Hr
      by (unfold defaultMaxRequests; lia).
    repeat split; [done|done|by rewrite Hr, Hrec|].
    intros later Hlater.
    unfold admission at 1. rewrite checkRateLimit_verdict. cbn zeta.
    fold (admission now botId m100). rewrite Hr, filter_none_kept.
    + by apply bool_decide_eq_true_2.
    + eapply Forall_impl; [exact Hlater|]. cbn. intros x Hx. lia.
Qed.

Lemma checkRateLimit_sliding_window_witness :
  let ts := map Z.of_nat (seq 0 100) in
  let m100 := snd (admissions ts "afdbot" ∅) in
  fst (admissions ts "afdbot" ∅) = replicate 100 true
  ∧ fst (admission 3599999 "afdbot" m100) = false
  ∧ fst (admission 3600099 "afdbot" (snd (admission 3599999 "afdbot" m100))) = true.
Proof.
  cbn zeta.
  destruct checkRateLimit_sliding_window as [_ H].
  destruct (H "afdbot" ∅ (map Z.of_nat (seq 0 100)) 3599999)
    as (H1 & H2 & _ & H4).
  - reflexivity.
  - reflexivity.
  - apply Forall_forall. intros t Ht.
    apply list_elem_of_fmap in Ht as (n & -> & Hn).
    apply elem_of_seq in Hn. unfold defaultWindowMs. lia.
  - split; [exact H1|]. split; [exact H2|].
    apply H4. apply Forall_forall. intros t Ht.
    apply list_elem_of_fmap in Ht as (n & -> & Hn).
    apply elem_of_seq in Hn. unfold defaultWindowMs. lia.
Defined.

End LimiterFacts.

Module JsFacts.

Lemma substring_all (s : string) :
  String.substring 0 (String.length s) s = s.
Proof. induction s as [|c s IH]; cbn; [done|]. by rewrite IH. Qed.

Lemma slice_bearer (token : string) :
  Js.slice 7 (String.append "Bearer " token) = token.
Proof.
  unfold Js.slice. cbv [String.append]. cbn [String.length substring Nat.sub].
  rewrite Nat.sub_0_r. apply substring_all.
Qed.


Section Distinct.
Context {A : Type} `{EqDecision A}.

Lemma set_order_elem (l : list A) : ∀ seen x,
  x ∈ Js.set_order seen l ↔ x ∈ l ∧ x ∉ seen.
Proof.
  induction l as [|y l IH]; intros seen x; cbn.
  - rewrite elem_of_nil. naive_solver.
  - case_bool_decide as Hy.
    + rewrite IH, elem_of_cons. naive_solver.
    + rewrite !elem_of_cons, IH, not_elem_of_cons.
      destruct (decide (x = y)); naive_solver.
Qed.

Lemma set_order_NoDup (l : list A) : ∀ seen, NoDup (Js.set_order seen l).
Proof.
  induction l as [|y l IH]; intros seen; cbn; [constructor|].
  case_bool_decide; [apply IH|].
  constructor; [|apply IH].
  rewrite set_order_elem, not_elem_of_cons. naive_solver.
Qed.

Lemma distinct_elem (l : list A) x : x ∈ Js.distinct l ↔ x ∈ l.
Proof.
  unfold Js.distinct. rewrite set_order_elem, elem_of_nil. naive_solver.
Qed.

Lemma distinct_NoDup (l : list A) : NoDup (Js.distinct l).
Proof. apply set_order_NoDup. Qed.
End Distinct.

End JsFacts.

Module ExtractFacts.
Import Extract.

(** The trim removes a suffix made of trailer characters only, and what
    is left does not end in one: the whole trailing run is gone. *)
Lemma trim_trailing_greedy (u : string) :
  ∃ t, u = String.append (trim_trailing u) t
       ∧ all_trailers t = true
       ∧ match last_char (trim_trailing u) with
         | Some c => is_trailer c = false
         | None => True
         end.
Proof.
  induction u as [|c r (t & Hr & Ht & Hlast)].
  - exists EmptyString. done.
  - cbn [trim_trailing].
    destruct (String.eqb (trim_trailing r) "") eqn:Ee.
    + apply String.eqb_eq in Ee. rewrite Ee in *. cbn [andb].
      change (r = t) in Hr. subst r.
      destruct (is_trailer c) eqn:Ec.
      * exists (String c t). split; [reflexivity|].
        split; [cbn; by rewrite Ec, Ht|done].
      * exists t. split; [reflexivity|]. split; [done|exact Ec].
    + cbn [andb]. exists t. split.
      { change (String c r = String c (String.append (trim_trailing r) t)).
        by rewrite <- Hr. }
      split; [done|].
      destruct (trim_trailing r) as [|c' r'] eqn:Et; [done|]. exact Hlast.
Qed.

End ExtractFacts.

Module StoreFacts.
Import Store.

(** The handler's update document names one path under two operators:
    [created_at], under [$setOnInsert] and under [$set]. *)
Lemma conflicting_paths_created_at : conflicting_paths = ["created_at"].
Proof. vm_compute. reflexivity. Qed.

(** So the server refuses every [updateOne] of the handler. *)
Lemma updateOne_refused u i m b col : updateOne u i m b col = None.
Proof. unfold updateOne. by rewrite conflicting_paths_created_at. Qed.

(** An accepted update stores the upserted document under the queried
    key and touches no other key. *)
Lemma apply_update_lookup u i m b col :
  snd (apply_update u i m b col) !! u = Some (upserted_doc u i m b (col !! u)).
Proof.
  unfold apply_update, upserted_doc.
  destruct (col !! u) as [d|] eqn:E; cbn.
  - case_decide as Hd; cbn.
    + by rewrite Hd.
    + by rewrite lookup_insert_eq.
  - by rewrite lookup_insert_eq.
Qed.

Lemma apply_update_lookup_ne u v i m b col :
  v ≠ u → snd (apply_update u i m b col) !! v = col !! v.
Proof.
  intros Hne. unfold apply_update.
  destruct (col !! u) as [d|] eqn:E; cbn.
  - case_decide; cbn; [done|]. by rewrite lookup_insert_ne.
  - by rewrite lookup_insert_ne.
Qed.

End StoreFacts.

Module IngestFacts.
Import Store Ingest.

(** The first [updateOne] of the loop is refused, and the loop ends with
    it: the call is in the log, the collection is what it was, and there
    are no counts. *)
Lemma merge_all_refused u rest b text botId now ins upd col log :
  merge_all (u :: rest) b text botId now ins upd col log
    = (None, col, log ++ [UpdateOne u]).
Proof. cbn [merge_all]. by rewrite StoreFacts.updateOne_refused. Qed.

(** [Array.from(new Set(urls))] begins with the first URL. *)
Lemma unique_cons x xs :
  Extract.unique (x :: xs) = x :: Js.set_order [x] xs.
Proof.
  unfold Extract.unique, Js.distinct. cbn [Js.set_order].
  by rewrite bool_decide_eq_false_2 by apply not_elem_of_nil.
Qed.

Lemma merge_step x xs b text botId now col log :
  merge_all (Extract.unique (x :: xs)) b text botId now 0 0 col log
    = (None, col, log ++ [UpdateOne x]).
Proof. rewrite unique_cons. apply merge_all_refused. Qed.

(** What the handler does with a request that passes its guards: a text
    without URLs is answered at once; with a URL, the four indexes are
    asked for, the upsert of the first URL is issued and refused, and the
    [catch] answers 500. *)
Lemma handler_accepts env clock now req st :
  accepts env clock req st = true →
  handler env clock now req st =
    let rl := snd (Limiter.checkRateLimit clock (botId_of req)
                     Limiter.defaultMaxRequests Limiter.defaultWindowMs
                     (rateLimitMap st)) in
    match Extract.urls_of (text_of req) with
    | [] => (NoUrls, mkState rl (links st) (calls st))
    | x :: _ =>
        (ServerError,
         mkState rl (links st) (calls st ++ ensure_indexes ++ [UpdateOne x]))
    end.
Proof.
  unfold accepts, handler. intros H.
  repeat (apply andb_prop in H as [H ?]).
  rewrite H. cbn [negb].
  destruct (Js.startsWith _ _); [|done]. cbn [negb].
  destruct (Limiter.checkRateLimit _ _ _ _ _) as [allowed rl].
  cbn in *. subst allowed. cbn [negb].
  destruct (bool_decide _); [|done]. cbn [negb].
  destruct (Js.truthy (b_tweet_text _)); [|done].
  destruct (Js.truthy (b_tweet_id _)); [|done]. cbn [negb orb].
  destruct (Extract.urls_of _) eqn:Eu; [done|].
  destruct (Js.truthy (MONGODB_URI _)); [|done]. cbn [negb].
  rewrite merge_step. by rewrite <- app_assoc.
Qed.

(** No call is answered with counts, and no call changes the
    collection. *)
Lemma handler_not_ingested env clock now req st i u p b :
  fst (handler env clock now req st) ≠ Ingested i u p b.
Proof.
  unfold handler.
  destruct (negb (String.eqb (method req) "POST")); [discriminate|].
  destruct (negb (Js.startsWith "Bearer " (auth_of req))); [discriminate|].
  destruct (Limiter.checkRateLimit _ _ _ _ _) as [allowed rl].
  destruct (negb allowed); [discriminate|].
  destruct (negb (bool_decide _)); [discriminate|].
  destruct (negb (Js.truthy (b_tweet_text _)) || negb (Js.truthy (b_tweet_id _)));
    [discriminate|].
  destruct (Extract.urls_of _); [discriminate|].
  destruct (negb (Js.truthy (MONGODB_URI _))); [discriminate|].
  rewrite merge_step. discriminate.
Qed.

Lemma handler_links env clock now req st :
  links (snd (handler env clock now req st)) = links st.
Proof.
  unfold handler.
  destruct (negb (String.eqb (method req) "POST")); [done|].
  destruct (negb (Js.startsWith "Bearer " (auth_of req))); [done|].
  destruct (Limiter.checkRateLimit _ _ _ _ _) as [allowed rl].
  destruct (negb allowed); [done|].
  destruct (negb (bool_decide _)); [done|].
  destruct (negb (Js.truthy (b_tweet_text _)) || negb (Js.truthy (b_tweet_id _)));
    [done|].
  destruct (Extract.urls_of _); [done|].
  destruct (negb (Js.truthy (MONGODB_URI _))); [done|].
  rewrite merge_step. done.
Qed.



(** The limiter step of the handler, in terms of the identity's record. *)
Lemma limiter_allows_recorded clock botId m rl :
  Limiter.checkRateLimit clock botId Limiter.defaultMaxRequests
    Limiter.defaultWindowMs m = (true, rl) →
  Limiter.record botId rl
    = filter (λ t, clock - Limiter.defaultWindowMs < t) (Limiter.record botId m)
      ++ [clock].
Proof.
  intros E.
  pose proof (LimiterFacts.checkRateLimit_verdict clock botId
                Limiter.defaultMaxRequests Limiter.defaultWindowMs m) as Hv.
  pose proof (LimiterFacts.checkRateLimit_record clock botId
                Limiter.defaultMaxRequests Limiter.defaultWindowMs m) as Hr.
  cbn zeta in Hv, Hr. rewrite E in Hv, Hr. cbn in Hv, Hr.
  by rewrite <- Hv in Hr.
Qed.

(** C5, as stated, fails: a well-formed Bearer credential that is not on
    the allow-list is rejected with [InvalidToken] only after
    [checkRateLimit] has recorded the attempt for the derived identity. *)
Lemma invalid_token_is_recorded :
  ¬ (∀ env clock now req st,
       is_auth_or_validation_failure (fst (handler env clock now req st)) = true →
       snd (handler env clock now req st) = st).
Proof.
  intros H.
  specialize (H (mkEnv (Some "mongodb://db") (Some "alpha.secret"))
                1000 1001
                (mkRequest "POST" (Some "Bearer mallory.guess") None
                   (mkBody (Some "see http://x.test/a") (Some "1") None None
                      None None None None None))
                (mkState ∅ ∅ [])).
  vm_compute in H. specialize (H eq_refl). discriminate H.
Qed.

(** C5 (amended). Every submission rejected for an authentication or
    validation reason is returned before any call to the collection and
    leaves the collection unchanged. A request rejected for a missing
    Bearer credential changes no state at all. A request rejected for a
    credential that is not on the allow-list, or for a missing
    [tweet_text] or [tweet_id], has already passed the limiter: the
    limiter allowed it and the rate-limit record of the derived identity
    holds the attempt. *)
Theorem rejection_effects env clock now req st :
  let r := fst (handler env clock now req st) in
  let st' := snd (handler env clock now req st) in
  is_auth_or_validation_failure r = true →
  links st' = links st
  ∧ calls st' = calls st
  ∧ (r = BearerRequired → st' = st)
  ∧ (r ≠ BearerRequired →
       Limiter.admission clock (botId_of req) (rateLimitMap st)
         = (true, rateLimitMap st')
       ∧ Limiter.record (botId_of req) (rateLimitMap st')
         = filter (λ t, clock - Limiter.defaultWindowMs < t)
             (Limiter.record (botId_of req) (rateLimitMap st))
           ++ [clock]).
Proof.
  cbn zeta. unfold handler, Limiter.admission.
  destruct (negb (String.eqb (method req) "POST")); [discriminate|].
  destruct (negb (Js.startsWith "Bearer " (auth_of req))).
  { cbn. intros _. repeat split; try done. }
  destruct (Limiter.checkRateLimit clock (botId_of req) _ _ _)
    as [allowed rl] eqn:El.
  destruct allowed; cbn [negb]; [|discriminate].
  pose proof (limiter_allows_recorded _ _ _ _ El) as Hrec.
  destruct (negb (bool_decide (token_of req ∈ validTokens env))).
  { cbn. intros _. repeat split; try done. }
  destruct (negb (Js.truthy (b_tweet_text (body req)))
            || negb (Js.truthy (b_tweet_id (body req)))).
  { cbn. intros _. repeat split; try done. }
  destruct (Extract.urls_of _); [discriminate|].
  destruct (negb (Js.truthy (MONGODB_URI env))); [discriminate|].
  rewrite merge_step. discriminate.
Qed.

Lemma rejection_effects_witness :
  let env := mkEnv (Some "mongodb://db") (Some "alpha.secret") in
  let req := mkRequest "POST" (Some "Bearer mallory.guess") None
               (mkBody (Some "see http://x.test/a") (Some "1") None None
                  None None None None None) in
  let st' := snd (handler env 1000 1001 req (mkState ∅ ∅ [])) in
  fst (handler env 1000 1001 req (mkState ∅ ∅ [])) = InvalidToken
  ∧ links st' = ∅ ∧ calls st' = []
  ∧ Limiter.record "mallory" (rateLimitMap st') = [1000].
Proof.
  cbn zeta.
  destruct (rejection_effects
              (mkEnv (Some "mongodb://db") (Some "alpha.secret")) 1000 1001
              (mkRequest "POST" (Some "Bearer mallory.guess") None
                 (mkBody (Some "see http://x.test/a") (Some "1") None None
                    None None None None None))
              (mkState ∅ ∅ []))
    as (Hl & Hc & _ & Hr).
  - vm_compute. reflexivity.
  - split; [vm_compute; reflexivity|].
    split; [exact Hl|]. split; [exact Hc|].
    destruct Hr as [_ Hr]; [vm_compute; discriminate|].
    exact Hr.
Defined.

(** The [updateOne] calls of the log after a refused submission. *)
Lemma merge_calls_logged l x :
  merge_calls (l ++ ensure_indexes ++ [UpdateOne x]) = merge_calls l ++ [x].
Proof. unfold merge_calls. by rewrite !omap_app. Qed.

(** C6 on the code. On the text [see http://x.test/a. and http://x.test/a,]
    the pattern matches the two substrings [http://x.test/a.] and
    [http://x.test/a,]; the trim, which removes the whole trailing run of
    characters of its class from any string, turns both into
    [http://x.test/a]; the [Set] keeps distinct URLs only, so the single
    URL [http://x.test/a] remains and exactly one [updateOne] call is
    issued. That call is refused, because the update document names
    [created_at] under two operators: a submission with that text which
    passes the guards of the handler is answered 500, not with
    [inserted = 1], and no record is stored for the URL. *)
Theorem extraction_trim_scenario_is_refused :
  let text := "see http://x.test/a. and http://x.test/a," in
  let u := "http://x.test/a" in
  Extract.match_all text = ["http://x.test/a."; "http://x.test/a,"]
  ∧ Extract.urls_of text = [u; u]
  ∧ Extract.unique (Extract.urls_of text) = [u]
  ∧ (∀ s : string,
       ∃ t, s = String.append (Extract.trim_trailing s) t
            ∧ Extract.all_trailers t = true
            ∧ match Extract.last_char (Extract.trim_trailing s) with
              | Some c => Extract.is_trailer c = false
              | None => True
              end)
  ∧ (∀ l : list string,
       NoDup (Extract.unique l) ∧ ∀ x, x ∈ Extract.unique l ↔ x ∈ l)
  ∧ (∀ env clock now req st,
       accepts env clock req st = true →
       b_tweet_text (body req) = Some text →
       links st !! u = None →
       let out := handler env clock now req st in
       fst out = ServerError
       ∧ (∀ i up p b, fst out ≠ Ingested i up p b)
       ∧ calls (snd out) = calls st ++ ensure_indexes ++ [UpdateOne u]
       ∧ merge_calls (calls (snd out)) = merge_calls (calls st) ++ [u]
       ∧ links (snd out) !! u = None).
Proof.
  cbn zeta.
  split; [vm_compute; reflexivity|].
  split; [vm_compute; reflexivity|].
  split; [vm_compute; reflexivity|].
  split; [apply ExtractFacts.trim_trailing_greedy|].
  split.
  { intros l. split; [apply JsFacts.distinct_NoDup|].
    intros x. apply JsFacts.distinct_elem. }
  intros env clock now req st Hacc Htext Hfresh.
  rewrite (handler_accepts _ _ now _ _ Hacc).
  assert (Ht : text_of req = "see http://x.test/a. and http://x.test/a,").
  { unfold text_of. by rewrite Htext. }
  rewrite Ht.
  change (Extract.urls_of "see http://x.test/a. and http://x.test/a,")
    with ["http://x.test/a"; "http://x.test/a"].
  cbn [fst snd calls links].
  split; [done|]. split; [discriminate|]. split; [done|].
  split; [apply merge_calls_logged|done].
Qed.

Lemma extraction_trim_scenario_is_refused_witness :
  let env := mkEnv (Some "mongodb://db") (Some "alpha.k1") in
  let req := mkRequest "POST" (Some "Bearer alpha.k1") None
               (mkBody (Some "see http://x.test/a. and http://x.test/a,")
                  (Some "1") None None None None None None None) in
  let out := handler env 1000 1001 req (mkState ∅ ∅ []) in
  fst out = ServerError
  ∧ calls (snd out)
    = [CreateIndex "url"; CreateIndex "tweet_id"; CreateIndex "created_at";
       CreateIndex "severity_score"; UpdateOne "http://x.test/a"]
  ∧ links (snd out) !! "http://x.test/a" = None.
Proof.
  cbn zeta.
  destruct extraction_trim_scenario_is_refused as (_ & _ & _ & _ & _ & H).
  destruct (H (mkEnv (Some "mongodb://db") (Some "alpha.k1")) 1000 1001
              (mkRequest "POST" (Some "Bearer alpha.k1") None
                 (mkBody (Some "see http://x.test/a. and http://x.test/a,")
                    (Some "1") None None None None None None None))
              (mkState ∅ ∅ [])) as (H1 & _ & H2 & _ & H3).
  - vm_compute. reflexivity.
  - reflexivity.
  - reflexivity.
  - split; [exact H1|]. split; [exact H2|exact H3].
Defined.

(** C9 on the code. [processed_urls] is [urls.length], the number of
    trimmed matches before the duplicates are removed, but it is a field
    of the success response only, and an accepted submission whose
    [tweet_text] contains at least one URL never gets that response: the
    one [updateOne] call issued, for the first URL, is refused (the update
    document names [created_at] under two operators) and the answer is
    500, which carries no [processed_urls]. A text whose matches are the
    same URL twice has two trimmed matches and one [updateOne] call. *)
Theorem processed_urls_is_not_reported env clock now req st :
  accepts env clock req st = true →
  Extract.urls_of (text_of req) ≠ [] →
  let out := handler env clock now req st in
  fst out = ServerError
  ∧ (∀ inserted updated p b, fst out ≠ Ingested inserted updated p b)
  ∧ (∃ x, head (Extract.urls_of (text_of req)) = Some x
          ∧ merge_calls (calls (snd out)) = merge_calls (calls st) ++ [x])
  ∧ ∀ x, Extract.urls_of (text_of req) = [x; x] →
      length (Extract.urls_of (text_of req)) = 2%nat
      ∧ Extract.unique (Extract.urls_of (text_of req)) = [x]
      ∧ merge_calls (calls (snd out)) = merge_calls (calls st) ++ [x].
Proof.
  intros Hacc Hne. cbn zeta.
  rewrite (handler_accepts _ _ now _ _ Hacc). cbn zeta.
  destruct (Extract.urls_of (text_of req)) as [|x0 xs] eqn:Eu; [done|].
  cbn [fst snd calls head].
  split; [done|]. split; [discriminate|].
  split; [exists x0; split; [done|apply merge_calls_logged]|].
  intros x Hx. injection Hx as -> ->. split; [done|].
  split; [|apply merge_calls_logged].
  rewrite unique_cons. cbn [Js.set_order].
  by rewrite bool_decide_eq_true_2 by apply list_elem_of_here.
Qed.

Lemma processed_urls_is_not_reported_witness :
  let env := mkEnv (Some "mongodb://db") (Some "alpha.k1") in
  let req := mkRequest "POST" (Some "Bearer alpha.k1") None
               (mkBody (Some "http://x.test/a http://x.test/a")
                  (Some "1") None None None None None None None) in
  let out := handler env 1000 1001 req (mkState ∅ ∅ []) in
  fst out = ServerError
  ∧ length (Extract.urls_of (text_of req)) = 2%nat
  ∧ merge_calls (calls (snd out)) = ["http://x.test/a"].
Proof.
  cbn zeta.
  destruct (processed_urls_is_not_reported
              (mkEnv (Some "mongodb://db") (Some "alpha.k1")) 1000 1001
              (mkRequest "POST" (Some "Bearer alpha.k1") None
                 (mkBody (Some "http://x.test/a http://x.test/a")
                    (Some "1") None None None None None None None))
              (mkState ∅ ∅ [])) as (H1 & _ & _ & H).
  - vm_compute. reflexivity.
  - vm_compute. discriminate.
  - destruct (H "http://x.test/a") as (H2 & _ & H3);
      [vm_compute; reflexivity|].
    split; [exact H1|]. split; [exact H2|exact H3].
Defined.

(** C2 on the code. Submitting an identical payload twice in succession
    from the same identity for a fresh URL: each of the two calls issues
    one [updateOne] for the URL, each is refused (the update document
    names [created_at] under two operators), and each is answered 500,
    where the specification has [inserted = 1] and then a no-op. No record is
    stored for the URL, after the first call or after the second, so there
    is no [seen_by_bots] that could contain the identity. *)
Theorem repeat_submission_is_refused env clock1 now1 clock2 now2 req st u :
  accepts env clock1 req st = true →
  Extract.unique (Extract.urls_of (text_of req)) = [u] →
  links st !! u = None →
  let out1 := handler env clock1 now1 req st in
  accepts env clock2 req (snd out1) = true →
  let out2 := handler env clock2 now2 req (snd out1) in
  fst out1 = ServerError
  ∧ fst out2 = ServerError
  ∧ links (snd out1) !! u = None
  ∧ links (snd out2) !! u = None
  ∧ merge_calls (calls (snd out2)) = merge_calls (calls st) ++ [u; u].
Proof.
  intros Hacc1 Hu Hfresh. cbn zeta.
  rewrite (handler_accepts _ _ now1 _ _ Hacc1). cbn zeta.
  destruct (Extract.urls_of (text_of req)) as [|x0 xs] eqn:Eu;
    [discriminate Hu|].
  rewrite unique_cons in Hu. injection Hu as -> _.
  cbn [fst snd]. intros Hacc2.
  rewrite (handler_accepts _ _ now2 _ _ Hacc2). cbn zeta.
  rewrite Eu. cbn [fst snd links calls].
  split; [done|]. split; [done|]. split; [done|]. split; [done|].
  by rewrite !merge_calls_logged, <- app_assoc.
Qed.

Lemma repeat_submission_is_refused_witness :
  let env := mkEnv (Some "mongodb://db") (Some "alpha.k1") in
  let req := mkRequest "POST" (Some "Bearer alpha.k1") None
               (mkBody (Some "see http://x.test/a") (Some "1") None None
                  (Some 5) None None None None) in
  let out1 := handler env 1000 1001 req (mkState ∅ ∅ []) in
  let out2 := handler env 5000 5001 req (snd out1) in
  fst out1 = ServerError
  ∧ fst out2 = ServerError
  ∧ links (snd out1) !! "http://x.test/a" = None
  ∧ links (snd out2) !! "http://x.test/a" = None
  ∧ merge_calls (calls (snd out2)) = ["http://x.test/a"; "http://x.test/a"].
Proof.
  cbn zeta.
  apply (repeat_submission_is_refused
           (mkEnv (Some "mongodb://db") (Some "alpha.k1")) 1000 1001 5000 5001
           (mkRequest "POST" (Some "Bearer alpha.k1") None
              (mkBody (Some "see http://x.test/a") (Some "1") None None
                 (Some 5) None None None None))
           (mkState ∅ ∅ []) "http://x.test/a").
  - vm_compute. reflexivity.
  - vm_compute. reflexivity.
  - reflexivity.
  - vm_compute. reflexivity.
Defined.





End IngestFacts.

Module LinksFacts.
Import Store Links.

Lemma insert_sorted_length d l :
  length (insert_sorted d l) = S (length l).
Proof.
  induction l as [|x l IH]; cbn; [done|].
  destruct (comes_first d x); cbn; [done|]. by rewrite IH.
Qed.

Lemma sort_length l : length (sort l) = length l.
Proof.
  unfold sort. induction l as [|x l IH]; cbn; [done|].
  by rewrite insert_sorted_length, IH.
Qed.

(** C7, as stated, fails: a request that supplies the [page] parameter
    with an empty value ([?page=]) still gets the flat legacy shape. *)
Lemma empty_page_parameter_is_legacy :
  ¬ (∀ (regex_test : string → string → bool) (Date_of : string → Z)
       (uri : option string) (q : Query) (col : gmap string Link),
       Js.truthy uri = true →
       (is_legacy (handler regex_test Date_of uri q col) = true
        ↔ supplied (page q) = false ∧ supplied (limit q) = false
          ∧ (length (matching regex_test Date_of q col) ≤ 500)%nat)).
Proof.
  intros H.
  specialize (H (λ _ _, true) (λ _, 0) (Some "mongodb://db")
                (mkQuery (Some "") None None None None None) ∅ eq_refl).
  destruct H as [H _]. destruct H as [H _]; [reflexivity|]. discriminate H.
Qed.

(** C7 (amended). For every read request served from a configured
    database, the flat legacy shape (the matching records, sorted, with no
    pagination metadata, at most 500 of them) is returned exactly when
    neither [page] nor [limit] carries a non-empty value (a parameter that
    is absent or empty counts as not supplied) and the total count of
    matching records is at most 500; every other request gets the
    paginated shape. In particular a request without [page] and [limit]
    gets the legacy shape with exactly 500 matching records and the
    paginated shape with 501. *)
Theorem legacy_mode_selection
    (regex_test : string → string → bool) (Date_of : string → Z)
    (uri : option string) (q : Query) (col : gmap string Link) :
  Js.truthy uri = true →
  let found := matching regex_test Date_of q col in
  let r := handler regex_test Date_of uri q col in
  (is_legacy r = true
   ↔ Js.truthy (page q) = false ∧ Js.truthy (limit q) = false
     ∧ (length found ≤ 500)%nat)
  ∧ (is_legacy r = true →
       r = Legacy (sort found) ∧ (length (response_links r) ≤ 500)%nat)
  ∧ (is_legacy r = false → is_paginated r = true)
  ∧ (page q = None → limit q = None →
       (length found = 500%nat → is_legacy r = true)
       ∧ (length found = 501%nat → is_paginated r = true)).
Proof.
  intros Huri. cbn zeta. unfold handler. rewrite Huri. cbn [negb].
  fold (matching regex_test Date_of q col).
  set (found := matching regex_test Date_of q col).
  destruct (Js.truthy (page q)) eqn:Ep; cbn [negb andb].
  { split; [split; [discriminate|intros (? & _); discriminate]|].
    split; [discriminate|]. split; [done|].
    intros Hp. rewrite Hp in Ep. discriminate. }
  destruct (Js.truthy (limit q)) eqn:El; cbn [negb andb].
  { split; [split; [discriminate|intros (_ & ? & _); discriminate]|].
    split; [discriminate|]. split; [done|].
    intros _ Hl. rewrite Hl in El. discriminate. }
  destruct (Z.of_nat (length found) <=? 500) eqn:Ec.
  - apply Z.leb_le in Ec. cbn.
    assert (Hlen : (length found ≤ 500)%nat) by lia.
    assert (Htake : take 500 (sort found) = sort found).
    { apply take_ge. rewrite sort_length. lia. }
    rewrite Htake, sort_length.
    split; [split; [done|done]|]. split; [done|]. split; [discriminate|].
    intros _ _. split; [done|]. intros H501. lia.
  - apply Z.leb_gt in Ec. cbn.
    split; [split; [discriminate|intros (_ & _ & ?); lia]|].
    split; [discriminate|]. split; [done|].
    intros _ _. split; [intros H500; lia|done].
Qed.

Lemma legacy_mode_selection_witness :
  let q := mkQuery (Some "") (Some "") (Some "x.test") None None None in
  handler (λ _ _, true) (λ _, 0) (Some "mongodb://db") q ∅ = Legacy [].
Proof.
  cbn zeta.
  destruct (legacy_mode_selection (λ _ _, true) (λ _, 0) (Some "mongodb://db")
              (mkQuery (Some "") (Some "") (Some "x.test") None None None) ∅)
    as (Hiff & Hshape & _).
  - reflexivity.
  - destruct Hshape as [Hr _].
    + apply Hiff. repeat split. vm_compute. lia.
    + exact Hr.
Defined.

End LinksFacts.

Module StatsFacts.
Import Store Stats.

Lemma elem_of_add_bot x b (s : gset string) :
  x ∈ add_bot b s ↔ x ∈ s ∨ (b = Some x ∧ x ≠ "").
Proof.
  unfold add_bot. destruct b as [y|]; [|naive_solver].
  cbn. destruct (String.eqb y "") eqn:E; cbn.
  - apply String.eqb_eq in E. subst y. naive_solver.
  - apply String.eqb_neq in E. rewrite elem_of_union, elem_of_singleton.
    naive_solver.
Qed.

Lemma elem_of_add_bots x arr : ∀ s : gset string,
  x ∈ add_bots arr s ↔ x ∈ s ∨ (Some x ∈ arr ∧ x ≠ "").
Proof.
  unfold add_bots. induction arr as [|b arr IH]; intros s; cbn.
  - rewrite elem_of_nil. naive_solver.
  - rewrite IH, elem_of_add_bot, elem_of_cons. naive_solver.
Qed.

Lemma elem_of_add_arrays x arrs : ∀ s : gset string,
  x ∈ foldl (λ acc botArray,
               match botArray with
               | Some arr => add_bots arr acc
               | None => acc
               end) s arrs
  ↔ x ∈ s ∨ ∃ arr, Some arr ∈ arrs ∧ Some x ∈ arr ∧ x ≠ "".
Proof.
  induction arrs as [|a arrs IH]; intros s; cbn.
  - split; [by left|]. intros [?|(arr & Hin & _)]; [done|].
    by apply elem_of_nil in Hin.
  - rewrite IH. destruct a as [arr0|].
    + rewrite elem_of_add_bots. split.
      * intros [[?|[? ?]]|(arr & ? & ? & ?)]; [by left| |].
        -- right. exists arr0. split; [apply list_elem_of_here|done].
        -- right. exists arr. split; [by apply list_elem_of_further|done].
      * intros [?|(arr & Hin & ? & ?)]; [by left; left|].
        apply elem_of_cons in Hin as [Heq|Hin].
        -- injection Heq as ->. left. by right.
        -- right. by exists arr.
    + split.
      * intros [?|(arr & ? & ? & ?)]; [by left|].
        right. exists arr. split; [by apply list_elem_of_further|done].
      * intros [?|(arr & Hin & ? & ?)]; [by left|].
        apply elem_of_cons in Hin as [Heq|Hin]; [discriminate|].
        right. by exists arr.
Qed.

Lemma elem_of_union_falsy x docs :
  x ∈ union_of_identities falsy docs
  ↔ ∃ d, d ∈ docs ∧ Some x ∈ identities_of d ∧ x ≠ "".
Proof.
  unfold union_of_identities.
  rewrite elem_of_list_to_set, list_elem_of_omap. split.
  - intros (o & Ho & Hk). apply list_elem_of_bind in Ho as (d & Hd & Hin).
    unfold falsy in Hk. destruct o as [y|]; [|done]. cbn in Hk.
    destruct (String.eqb y "") eqn:E; cbn in Hk; [done|].
    injection Hk as ->. apply String.eqb_neq in E. by exists d.
  - intros (d & Hd & Hin & Hne). exists (Some x). split.
    + apply list_elem_of_bind. by exists d.
    + unfold falsy. cbn. apply String.eqb_neq in Hne. by rewrite Hne.
Qed.

Lemma elem_of_map {A B} (f : A → B) (l : list A) (y : B) :
  y ∈ map f l ↔ ∃ x, y = f x ∧ x ∈ l.
Proof.
  induction l as [|a l IH]; cbn.
  - rewrite elem_of_nil. split; [done|]. intros (x & _ & Hx).
    by apply elem_of_nil in Hx.
  - rewrite elem_of_cons, IH. split.
    + intros [->|(x & -> & Hx)].
      * exists a. split; [done|apply list_elem_of_here].
      * exists x. split; [done|by apply list_elem_of_further].
    + intros (x & -> & Hx). apply elem_of_cons in Hx as [->|Hx];
        [by left|]. right. by exists x.
Qed.

(** The set the handler builds is the union of the truthy identities the
    records hold. *)
Lemma collect_bots_union startOfToday docs g :
  aggregate startOfToday docs = Some g →
  collect_bots g = union_of_identities falsy docs.
Proof.
  intros Hg.
  assert (Hu : uniqueBots g = Js.distinct (map bot_id docs)
               ∧ uniqueSeenByBots g = Js.distinct (map seen_by_bots docs)).
  { destruct docs as [|d0 ds]; [discriminate|]. by injection Hg as <-. }
  destruct Hu as [Hub Hus]. apply set_eq. intros x.
  unfold collect_bots. rewrite Hub, Hus.
  rewrite elem_of_add_arrays, elem_of_add_bots, elem_of_union_falsy.
  setoid_rewrite JsFacts.distinct_elem.
  setoid_rewrite elem_of_map.
  unfold identities_of. split.
  - intros [[Hin|((d & Hb & Hd) & Hne)]|(arr & (d & Ha & Hd) & Hx & Hne)].
    + by apply not_elem_of_empty in Hin.
    + exists d. split; [done|]. split; [|done]. rewrite Hb.
      apply list_elem_of_here.
    + exists d. split; [done|]. split; [|done]. rewrite <- Ha. cbn.
      by apply list_elem_of_further.
  - intros (d & Hd & Hin & Hne).
    apply elem_of_cons in Hin as [Hb|Hs].
    + left. right. split; [|done]. by exists d.
    + right. destruct (seen_by_bots d) as [arr|] eqn:Es; cbn in Hs.
      * exists arr. split; [|done]. exists d. by rewrite Es.
      * by apply elem_of_nil in Hs.
Qed.

(** C8, as stated, fails: a record whose [bot_id] is the empty string
    holds an identity that is neither null nor absent, yet the handler's
    truthiness test leaves it out of the count. *)
Lemma empty_identity_not_counted :
  ¬ (∀ (uri : option string) (startOfToday : Z) (col : gmap string Link),
       Js.truthy uri = true →
       activeBots (handler uri "GET" startOfToday col)
         = Some (size (union_of_identities null_or_absent
                         (map snd (map_to_list col))))).
Proof.
  intros H.
  specialize (H (Some "mongodb://db") 0
                {[ "http://x.test/a" :=
                     mkLink "http://x.test/a" (Some 5) None (Some "11") None
                       3 [] [] None None None (Some "") (Some 1000) None ]}
                eq_refl).
  vm_compute in H. discriminate H.
Qed.

(** C8 (amended). [stats()] reports [active_bots] equal to the size of
    the set formed by the union of every record's [bot_id] value and
    every element of every record's [seen_by_bots] array, with null,
    absent and empty-string identities excluded; in particular, when the
    collection holds the one record left after identity A created it and
    a different identity B resubmitted its URL ([bot_id = B],
    [seen_by_bots = [A, B]]), [active_bots] is 2. *)
Theorem active_bots_union (uri : option string) (startOfToday : Z)
    (col : gmap string Link) :
  Js.truthy uri = true →
  activeBots (handler uri "GET" startOfToday col)
    = Some (size (union_of_identities falsy (map snd (map_to_list col))))
  ∧ ∀ (A B u : string) (d : Link),
      col = {[ u := d ]} →
      bot_id d = Some B →
      seen_by_bots d = Some [Some A; Some B] →
      A ≠ B → A ≠ "" → B ≠ "" →
      activeBots (handler uri "GET" startOfToday col) = Some 2%nat.
Proof.
  intros Huri.
  assert (Hgen : activeBots (handler uri "GET" startOfToday col)
    = Some (size (union_of_identities falsy (map snd (map_to_list col))))).
  { unfold handler. rewrite Huri. cbn [String.eqb negb].
    change (negb (String.eqb "GET" "GET")) with false. cbn [negb].
    destruct (aggregate startOfToday (map snd (map_to_list col)))
      as [g|] eqn:Eg.
    - cbn. by rewrite (collect_bots_union _ _ _ Eg).
    - destruct (map snd (map_to_list col)); [done|discriminate]. }
  split; [exact Hgen|].
  intros A B u d -> Hb Hs HAB HA HB. rewrite Hgen.
  rewrite map_to_list_singleton. cbn [map snd].
  assert (Hset : union_of_identities falsy [d] = ({[A]} ∪ {[B]} : gset string)).
  { apply set_eq. intros x.
    rewrite elem_of_union_falsy, elem_of_union, !elem_of_singleton. split.
    - intros (d' & Hd' & Hin & _).
      apply list_elem_of_singleton in Hd'. subst d'.
      unfold identities_of in Hin. rewrite Hb, Hs in Hin. cbn in Hin.
      rewrite !elem_of_cons, elem_of_nil in Hin. naive_solver.
    - intros [->| ->]; exists d;
        (split; [apply list_elem_of_here|]);
        unfold identities_of; rewrite Hb, Hs; cbn;
        (split; [|done]); rewrite !elem_of_cons; naive_solver. }
  rewrite Hset, size_union, !size_singleton; [done|].
  apply disjoint_singleton_l. by rewrite elem_of_singleton.
Qed.

Lemma active_bots_union_witness :
  let d := mkLink "http://x.test/a" (Some 7) (Some "alpha") (Some "12") None
             9 [] [] None (Some "api_upload")
             (Some "again http://x.test/a") (Some "beta") (Some 2000)
             (Some [Some "alpha"; Some "beta"]) in
  activeBots (handler (Some "mongodb://db") "GET" 0
                {[ "http://x.test/a" := d ]})
    = Some 2%nat.
Proof.
  cbn zeta.
  refine (proj2 (active_bots_union (Some "mongodb://db") 0 _ eq_refl)
            "alpha" "beta" "http://x.test/a"
            (mkLink "http://x.test/a" (Some 7) (Some "alpha") (Some "12") None
               9 [] [] None (Some "api_upload")
               (Some "again http://x.test/a") (Some "beta") (Some 2000)
               (Some [Some "alpha"; Some "beta"]))
            eq_refl eq_refl eq_refl _ _ _).
  - discriminate.
  - discriminate.
  - discriminate.
Defined.

End StatsFacts.

(* ===================================================================== *)
(** * Further properties of the limiter *)
(* ===================================================================== *)

Module LimiterMore.
Import Limiter Terms.

Lemma filter_narrow (P Q : Z → Prop) `{∀ x, Decision (P x)}
    `{∀ x, Decision (Q x)} (l : list Z) :
  (∀ x, P x → Q x) → filter P (filter Q l) = filter P l.
Proof.
  intros HPQ. induction l as [|x l IH]; [done|].
  destruct (decide (Q x)) as [Hq|Hq].
  - rewrite (filter_cons_True Q) by done.
    destruct (decide (P x)) as [Hp|Hp].
    + rewrite !(filter_cons_True P) by done. by rewrite IH.
    + rewrite !(filter_cons_False P) by done. exact IH.
  - rewrite (filter_cons_False Q) by done.
    rewrite (filter_cons_False P) by (intros Hp; apply Hq, HPQ, Hp). exact IH.
Qed.

(** X1. The limiter keeps one list per identity and a call touches only
    the list of its own identity: the entry of every other identity is
    left as it was, and the verdict another identity gets afterwards is the
    verdict it would have got before. *)
Theorem identities_are_isolated (now now' q w q' w' : Z) (botId other : string)
    (m : gmap string (list Z)) :
  other ≠ botId →
  snd (checkRateLimit now botId q w m) !! other = m !! other
  ∧ fst (checkRateLimit now' other q' w' (snd (checkRateLimit now botId q w m)))
    = fst (checkRateLimit now' other q' w' m).
Proof.
  intros Hne.
  assert (Hl : snd (checkRateLimit now botId q w m) !! other = m !! other).
  { unfold checkRateLimit. destruct (m !! botId) as [r|] eqn:E; cbn zeta.
    - rewrite E. cbn. case_decide; cbn; [done|]. by rewrite lookup_insert_ne.
    - rewrite lookup_insert_eq. cbn.
      case_decide; cbn; by rewrite ?lookup_insert_ne. }
  split; [exact Hl|].
  rewrite !LimiterFacts.checkRateLimit_verdict. cbn zeta.
  unfold record. by rewrite Hl.
Qed.

Lemma identities_are_isolated_witness :
  let m := snd (admissions (map Z.of_nat (seq 0 100)) "alpha" ∅) in
  snd (admission 500 "alpha" m) !! "beta" = None
  ∧ fst (admission 600 "beta" (snd (admission 500 "alpha" m))) = true.
Proof.
  cbn zeta.
  destruct (identities_are_isolated 500 600 100 3600000 100 3600000
              "alpha" "beta"
              (snd (admissions (map Z.of_nat (seq 0 100)) "alpha" ∅)))
    as [H1 H2].
  - discriminate.
  - split.
    + unfold admission, defaultMaxRequests, defaultWindowMs. rewrite H1.
      vm_compute. reflexivity.
    + unfold admission, defaultMaxRequests, defaultWindowMs. rewrite H2.
      vm_compute. reflexivity.
Defined.

(** One call, on a list within the quota, leaves a list within the quota. *)
Lemma admission_bounded now botId m :
  (length (record botId m) ≤ 100)%nat →
  (length (record botId (snd (admission now botId m))) ≤ 100)%nat.
Proof.
  intros Hlen. unfold admission.
  rewrite LimiterFacts.checkRateLimit_record. cbn zeta.
  case_bool_decide as Hv; [|done].
  rewrite length_app. cbn. unfold defaultMaxRequests in Hv. lia.
Qed.

(** X2. The list stored for an identity never grows beyond the quota:
    whatever the clock readings of a run of calls, a list of at most 100
    timestamps is still a list of at most 100 timestamps afterwards. *)
Theorem stored_timestamps_bounded (times : list Z) : ∀ botId m,
  (length (record botId m) ≤ 100)%nat →
  (length (record botId (snd (admissions times botId m))) ≤ 100)%nat.
Proof.
  induction times as [|t ts IH]; intros botId m Hlen; [done|].
  cbn [admissions].
  pose proof (admission_bounded t botId m Hlen) as Hb.
  destruct (admission t botId m) as [ok m'] eqn:Ea. cbn [snd] in Hb.
  specialize (IH botId m' Hb).
  destruct (admissions ts botId m') as [oks m'']. exact IH.
Qed.

Lemma stored_timestamps_bounded_witness :
  (length (record "alpha"
             (snd (admissions (map Z.of_nat (seq 0 150)) "alpha" ∅))) ≤ 100)%nat.
Proof.
  apply (stored_timestamps_bounded (map Z.of_nat (seq 0 150)) "alpha" ∅).
  unfold record. rewrite lookup_empty. cbn. lia.
Defined.

(** The invariant behind the window bound: the stored list is the part of
    the allowed readings that lies in the window ending at [last]. *)
Lemma window_bound_from (times : list Z) : ∀ botId m hist last T,
  record botId m = filter (λ x, last - defaultWindowMs < x) hist →
  (length (record botId m) ≤ 100)%nat →
  Forall (λ x, last ≤ x) times →
  nondecreasing times →
  last ≤ T →
  Forall (λ x, x ≤ T) times →
  (length (filter (λ x, (T - defaultWindowMs < x)%Z)
             (hist ++ allowed_times times (fst (admissions times botId m))))
   ≤ 100)%nat.
Proof.
  induction times as [|t ts IH];
    intros botId m hist last T Hrec Hlen Hlast Hmono HT Hall.
  - cbn. rewrite app_nil_r.
    rewrite <- (filter_narrow (λ x, T - defaultWindowMs < x)
                  (λ x, last - defaultWindowMs < x)) by (intros x; lia).
    rewrite <- Hrec. etrans; [apply length_filter|done].
  - apply Forall_cons in Hlast as [Hlt Hlast].
    apply Forall_cons in Hall as [HtT Hall].
    destruct Hmono as [Hts Hmono]. cbn [admissions].
    pose proof (LimiterFacts.checkRateLimit_verdict t botId defaultMaxRequests
                  defaultWindowMs m) as Hv.
    pose proof (LimiterFacts.checkRateLimit_record t botId defaultMaxRequests
                  defaultWindowMs m) as Hr.
    cbn zeta in Hv, Hr. fold (admission t botId m) in Hv, Hr.
    assert (Hvalid : filter (λ x, t - defaultWindowMs < x) (record botId m)
                     = filter (λ x, t - defaultWindowMs < x) hist).
    { rewrite Hrec. apply filter_narrow. intros x. lia. }
    rewrite Hvalid in Hv, Hr.
    destruct (admission t botId m) as [ok m'] eqn:Ea. cbn [fst snd] in Hv, Hr.
    destruct (admissions ts botId m') as [oks m''] eqn:Es. cbn [fst].
    cbn [allowed_times]. subst ok.
    case_bool_decide as Hq.
    + specialize (IH botId m' (hist ++ [t]) t T).
      rewrite Es in IH. cbn [fst] in IH.
      rewrite <- app_assoc in IH. apply IH; try done.
      * rewrite Hr, filter_app. f_equal.
        rewrite filter_cons_True by (unfold defaultWindowMs; lia). done.
      * rewrite Hr, length_app. cbn. unfold defaultMaxRequests in Hq. lia.
    + specialize (IH botId m' hist last T).
      rewrite Es in IH. cbn [fst] in IH. apply IH; try done.
      * by rewrite Hr.
      * by rewrite Hr.
Qed.

(** X3. The counter is a sliding window: when an identity with no stored
    timestamps makes calls at clock readings that never go back, then at
    any instant [T] not earlier than those calls, the calls that were
    allowed within the hour ending at [T] number at most 100. No placement
    of the calls around a window boundary lets more through. *)
Theorem window_never_exceeds_quota (times : list Z) (botId : string)
    (m : gmap string (list Z)) (T : Z) :
  record botId m = [] →
  nondecreasing times →
  Forall (λ x, x ≤ T) times →
  (length (filter (λ x, (T - defaultWindowMs < x)%Z)
             (allowed_times times (fst (admissions times botId m))))
   ≤ 100)%nat.
Proof.
  intros Hempty Hmono Hall.
  destruct times as [|t ts]; [cbn; lia|].
  apply (window_bound_from (t :: ts) botId m [] t T).
  - by rewrite Hempty.
  - rewrite Hempty. cbn. lia.
  - destruct Hmono as [Hts _]. constructor; [lia|done].
  - done.
  - by apply Forall_cons in Hall as [? _].
  - done.
Qed.

Lemma window_never_exceeds_quota_witness :
  let times := map (λ n, 30000 * Z.of_nat n) (seq 0 150) in
  (length (filter (λ x, (4470000 - defaultWindowMs < x)%Z)
             (allowed_times times (fst (admissions times "alpha" ∅))))
   ≤ 100)%nat.
Proof.
  cbn zeta.
  apply (window_never_exceeds_quota
           (map (λ n, 30000 * Z.of_nat n) (seq 0 150)) "alpha" ∅ 4470000).
  - reflexivity.
  - vm_compute. repeat (split; [repeat constructor; discriminate|]). exact I.
  - apply Forall_forall. intros x Hx.
    apply list_elem_of_In, in_map_iff in Hx as (n & <- & Hn).
    apply in_seq in Hn. lia.
Defined.

End LimiterMore.

(* ===================================================================== *)
(** * Further properties of the ingest handler *)
(* ===================================================================== *)

Module IngestMore.
Import Store Ingest Terms.

(** No response carries counts. *)
Lemma handler_is_ingested env clock now req st :
  is_ingested (fst (handler env clock now req st)) = false.
Proof.
  destruct (fst (handler env clock now req st)) as [| | | | | |i u p b|] eqn:Er;
    try done.
  by apply IngestFacts.handler_not_ingested in Er.
Qed.

(** The log of storage calls after a call: it is what it was, and a 500
    then comes from the missing [MONGODB_URI]; or the request passed every
    guard and carried a URL, the four indexes and the upsert of the first
    URL were asked for, and the answer is 500. *)
Lemma handler_calls env clock now req st :
  let out := handler env clock now req st in
  (calls (snd out) = calls st
   ∧ (fst out = ServerError → Js.truthy (MONGODB_URI env) = false))
  ∨ (fst out = ServerError
     ∧ accepts env clock req st = true
     ∧ ∃ x, head (Extract.urls_of (text_of req)) = Some x
            ∧ calls (snd out) = calls st ++ ensure_indexes ++ [UpdateOne x]).
Proof.
  cbn zeta.
  destruct (accepts env clock req st) eqn:Hacc.
  - rewrite (IngestFacts.handler_accepts _ _ now _ _ Hacc). cbn zeta.
    destruct (Extract.urls_of (text_of req)) as [|x xs].
    + left. by split.
    + right. split; [done|]. split; [done|]. by exists x.
  - left. revert Hacc. unfold accepts, handler.
    destruct (String.eqb (method req) "POST"); cbn [negb andb]; [|by split].
    destruct (Js.startsWith "Bearer " (auth_of req)); cbn [negb andb];
      [|by split].
    destruct (Limiter.checkRateLimit clock (botId_of req) _ _ _)
      as [allowed rl].
    destruct allowed; cbn [negb andb fst]; [|by split].
    destruct (bool_decide (token_of req ∈ validTokens env)); cbn [negb andb];
      [|by split].
    destruct (Js.truthy (b_tweet_text (body req))); cbn [negb andb orb];
      [|by split].
    destruct (Js.truthy (b_tweet_id (body req))); cbn [negb andb orb];
      [|by split].
    destruct (Extract.urls_of _); [by split|].
    destruct (Js.truthy (MONGODB_URI env)); cbn [negb]; [discriminate|].
    by split.
Qed.



(** What a call leaves under a key: the upserted document when the call
    succeeded and the key is one of the URLs of the text, the old entry
    otherwise. *)
Lemma handler_lookup env clock now req st u :
  let out := handler env clock now req st in
  links (snd out) !! u
  = if is_ingested (fst out) && bool_decide (u ∈ Extract.urls_of (text_of req))
    then Some (upserted_doc u (mkOnInsert u now (botId_of req))
                 (metadata_of (body req) (text_of req) (botId_of req) now)
                 (botId_of req) (links st !! u))
    else links st !! u.
Proof.
  cbn zeta. by rewrite handler_is_ingested, IngestFacts.handler_links.
Qed.

(** The identity a credential gives, by cases on the part of the token
    before its first full stop. *)
Lemma derive_botId_cases (token : string) (req_ip : option string) :
  derive_botId token req_ip ≠ ""
  ∧ has_char "."%char (Js.split_dot_first token) = false
  ∧ (Js.split_dot_first token ≠ "" →
       derive_botId token req_ip = Js.split_dot_first token)
  ∧ (Js.split_dot_first token = "" →
       derive_botId token req_ip
       = if Js.truthy req_ip then default "" req_ip else "anonymous").
Proof.
  assert (Hdot : has_char "."%char (Js.split_dot_first token) = false).
  { induction token as [|c r IH]; [done|]. cbn.
    destruct (Ascii.eqb c ".") eqn:E; [done|]. cbn. by rewrite E, IH. }
  assert (Hfall : ∀ o : option string,
            default "anonymous" (Js.or_else o (Some "anonymous")) ≠ "").
  { intros [a|]; cbn; [|done]. unfold Js.or_else. cbn.
    destruct (String.eqb a "") eqn:E; cbn; [done|].
    intros ->. by rewrite String.eqb_refl in E. }
  unfold derive_botId.
  destruct (Js.split_dot_first token) as [|c r] eqn:Es.
  - split.
    { change (Js.or_else (Some "") req_ip) with req_ip. apply Hfall. }
    split; [done|]. split; [done|]. intros _.
    change (Js.or_else (Some "") req_ip) with req_ip.
    unfold Js.or_else. destruct req_ip as [a|]; cbn; [|done].
    by destruct (negb (String.eqb a "")).
  - change (Js.or_else (Some (String c r)) req_ip) with (Some (String c r)).
    split; [done|]. split; [exact Hdot|]. split; [done|]. discriminate.
Qed.

(** X5. The identity a credential gives is never empty, whatever the
    credential and the address: it is the part of the token before its
    first full stop when that part is not empty (and then it has no full
    stop in it), and otherwise the address or the constant [anonymous]. *)
Theorem identity_never_empty (token : string) (req_ip : option string) :
  derive_botId token req_ip ≠ ""
  ∧ has_char "."%char (Js.split_dot_first token) = false
  ∧ (Js.split_dot_first token ≠ "" →
       derive_botId token req_ip = Js.split_dot_first token)
  ∧ (Js.split_dot_first token = "" →
       derive_botId token req_ip
       = if Js.truthy req_ip then default "" req_ip else "anonymous").
Proof. apply derive_botId_cases. Qed.

Lemma identity_never_empty_witness :
  derive_botId "alpha.0123abcd" (Some "10.0.0.7") = "alpha"
  ∧ derive_botId ".0123abcd" (Some "10.0.0.7") = "10.0.0.7"
  ∧ derive_botId "" None = "anonymous".
Proof.
  split.
  - apply (identity_never_empty "alpha.0123abcd" (Some "10.0.0.7")).
    discriminate.
  - split.
    + apply (identity_never_empty ".0123abcd" (Some "10.0.0.7")). reflexivity.
    + apply (identity_never_empty "" None). reflexivity.
Defined.

Lemma split_comma_no_comma (s : string) :
  Forall (λ t, has_char ","%char t = false) (split_comma s).
Proof.
  induction s as [|c r IH]; cbn.
  - by repeat constructor.
  - destruct (Ascii.eqb c ",") eqn:E.
    + constructor; [done|exact IH].
    + destruct (split_comma r) as [|h t]; cbn.
      * repeat constructor. cbn. by rewrite E.
      * apply Forall_cons in IH as [Hh Ht]. constructor; [|done].
        cbn. by rewrite E, Hh.
Qed.

(** X6. The allow-list holds no blank entry and no entry with a comma:
    it is empty when [VALID_TOKENS] is unset or empty, and a credential
    whose token is empty, all white space, or contains a comma is never on
    it. Such a request, like every request when the list is empty, is
    answered at the gate (405, 401 or 429) and reaches neither validation
    nor the database. *)
Theorem unlisted_tokens_stop_at_gate env clock now req st :
  (Js.truthy (VALID_TOKENS env) = false → validTokens env = [])
  ∧ (∀ t, t ∈ validTokens env →
       trim_truthy t = true ∧ has_char ","%char t = false)
  ∧ (Js.truthy (VALID_TOKENS env) = false
     ∨ trim_truthy (token_of req) = false
     ∨ has_char ","%char (token_of req) = true →
     stops_at_gate (fst (handler env clock now req st)) = true).
Proof.
  assert (Hempty : Js.truthy (VALID_TOKENS env) = false → validTokens env = []).
  { unfold validTokens, Js.or_else. intros ->. done. }
  assert (Hall : ∀ t, t ∈ validTokens env →
            trim_truthy t = true ∧ has_char ","%char t = false).
  { intros t Ht. unfold validTokens in Ht.
    apply list_elem_of_In, filter_In in Ht as [Hin Htrim].
    split; [done|].
    pose proof (split_comma_no_comma
                  (default "" (Js.or_else (VALID_TOKENS env) (Some "")))) as Hc.
    rewrite Forall_forall in Hc. apply Hc. by apply list_elem_of_In. }
  split; [exact Hempty|]. split; [exact Hall|].
  intros Hbad.
  assert (Hnot : token_of req ∉ validTokens env).
  { intros Hin. destruct Hbad as [Hv|[Ht|Hc]].
    - rewrite (Hempty Hv) in Hin. by apply elem_of_nil in Hin.
    - destruct (Hall _ Hin) as [Htrim _]. congruence.
    - destruct (Hall _ Hin) as [_ Hcomma]. congruence. }
  unfold handler.
  destruct (negb (String.eqb (method req) "POST")); [done|].
  destruct (negb (Js.startsWith "Bearer " (auth_of req))); [done|].
  destruct (Limiter.checkRateLimit clock (botId_of req) _ _ _)
    as [allowed rl].
  destruct (negb allowed); [done|].
  rewrite bool_decide_eq_false_2 by done. done.
Qed.

Lemma unlisted_tokens_stop_at_gate_witness :
  let req := mkRequest "POST" (Some "Bearer ") None
               (mkBody (Some "see http://x.test/a") (Some "1") None None
                  None None None None None) in
  stops_at_gate
    (fst (handler (mkEnv (Some "mongodb://db") (Some "alpha.k1,, ,beta.k2"))
            1000 1001 req (mkState ∅ ∅ []))) = true
  ∧ validTokens (mkEnv (Some "mongodb://db") (Some "alpha.k1,, ,beta.k2"))
    = ["alpha.k1"; "beta.k2"].
Proof.
  cbn zeta.
  destruct (unlisted_tokens_stop_at_gate
              (mkEnv (Some "mongodb://db") (Some "alpha.k1,, ,beta.k2"))
              1000 1001
              (mkRequest "POST" (Some "Bearer ") None
                 (mkBody (Some "see http://x.test/a") (Some "1") None None
                    None None None None None))
              (mkState ∅ ∅ [])) as (_ & _ & H).
  split; [|vm_compute; reflexivity].
  exact (H (or_intror (or_introl eq_refl))).
Defined.

(** X7. A call never removes a record and never changes who first saw
    it: a URL that has a record before the call has one after it, under
    the same [url] and with the same [first_seen_bot], whatever the
    response. *)
Theorem records_are_kept env clock now req st u d :
  links st !! u = Some d →
  ∃ d', links (snd (handler env clock now req st)) !! u = Some d'
        ∧ url d' = url d
        ∧ first_seen_bot d' = first_seen_bot d.
Proof.
  intros Hd. rewrite handler_lookup, Hd.
  destruct (is_ingested _ && bool_decide _); eexists; (split; [reflexivity|]);
    by split.
Qed.

Lemma records_are_kept_witness :
  let env := mkEnv (Some "mongodb://db") (Some "alpha.k1,beta.k2") in
  let d := mkLink "http://x.test/a" (Some 1000) (Some "alpha") (Some "11") None
             3 [] [] None (Some "api_upload") (Some "see http://x.test/a")
             (Some "alpha") (Some 1000) (Some [Some "alpha"]) in
  let req2 := mkRequest "POST" (Some "Bearer beta.k2") None
                (mkBody (Some "again http://x.test/a") (Some "12") None
                   None (Some 9) None None None None) in
  let st1 := mkState ∅ {[ "http://x.test/a" := d ]} [] in
  ∃ d', links (snd (handler env 2000 2000 req2 st1)) !! "http://x.test/a"
        = Some d'
        ∧ url d' = "http://x.test/a"
        ∧ first_seen_bot d' = Some "alpha".
Proof.
  cbn zeta.
  refine (records_are_kept _ 2000 2000 _ _ "http://x.test/a"
            (mkLink "http://x.test/a" (Some 1000) (Some "alpha") (Some "11") None
               3 [] [] None (Some "api_upload") (Some "see http://x.test/a")
               (Some "alpha") (Some 1000) (Some [Some "alpha"])) _).
  reflexivity.
Defined.

(** X8. A call touches only the URLs of its own text: the entry of every
    other URL, present or not, is what it was. *)
Theorem other_urls_untouched env clock now req st u :
  u ∉ Extract.urls_of (text_of req) →
  links (snd (handler env clock now req st)) !! u = links st !! u.
Proof.
  intros Hu. rewrite handler_lookup.
  rewrite (bool_decide_eq_false_2 _ Hu), andb_false_r. done.
Qed.

Lemma other_urls_untouched_witness :
  let env := mkEnv (Some "mongodb://db") (Some "alpha.k1,beta.k2") in
  let d := mkLink "http://x.test/a" (Some 1000) (Some "alpha") (Some "11") None
             3 [] [] None (Some "api_upload") (Some "see http://x.test/a")
             (Some "alpha") (Some 1000) (Some [Some "alpha"]) in
  let req2 := mkRequest "POST" (Some "Bearer beta.k2") None
                (mkBody (Some "other http://x.test/b") (Some "12") None
                   None (Some 9) None None None None) in
  let st1 := mkState ∅ {[ "http://x.test/a" := d ]} [] in
  links (snd (handler env 2000 2000 req2 st1)) !! "http://x.test/a"
  = links st1 !! "http://x.test/a".
Proof.
  cbn zeta.
  apply (other_urls_untouched
           (mkEnv (Some "mongodb://db") (Some "alpha.k1,beta.k2")) 2000 2000
           (mkRequest "POST" (Some "Bearer beta.k2") None
              (mkBody (Some "other http://x.test/b") (Some "12") None
                 None (Some 9) None None None None))).
  vm_compute. intros H. apply list_elem_of_singleton in H. discriminate H.
Defined.

Lemma addToSet_cases b arr :
  ∃ l', addToSet b arr = Some l'
        ∧ (l' = default [] arr ∨ ((Some b ∉ default [] arr)
                                   ∧ l' = default [] arr ++ [Some b])).
Proof.
  destruct arr as [l|]; cbn.
  - case_bool_decide; eexists; (split; [reflexivity|]); [by left|by right].
  - eexists. split; [reflexivity|]. right. split; [apply not_elem_of_nil|done].
Qed.

(** X9. [seen_by_bots] of a record only grows, and by at most the
    submitting identity: after a call it is the list it was, or that list
    with the identity of the request appended when it was not in it yet.
    No element is ever dropped or reordered, and a list without repeats
    stays without repeats. *)
Theorem seen_by_bots_append_only env clock now req st u d l :
  links st !! u = Some d →
  seen_by_bots d = Some l →
  ∃ d' l', links (snd (handler env clock now req st)) !! u = Some d'
           ∧ seen_by_bots d' = Some l'
           ∧ (l' = l
              ∨ ((Some (botId_of req) ∉ l) ∧ l' = l ++ [Some (botId_of req)]))
           ∧ (NoDup l → NoDup l').
Proof.
  intros Hd Hl. rewrite handler_lookup, Hd.
  destruct (is_ingested _ && bool_decide _).
  - destruct (addToSet_cases (botId_of req) (seen_by_bots d))
      as (l' & Hl' & Hcases).
    rewrite Hl in Hcases. cbn in Hcases.
    eexists _, l'. split; [reflexivity|]. split; [exact Hl'|].
    split; [exact Hcases|]. intros Hnd.
    destruct Hcases as [->|[Hnot ->]]; [done|].
    apply NoDup_app. split; [done|]. split; [|apply NoDup_singleton].
    intros x Hx Hx'. apply list_elem_of_singleton in Hx'. by subst x.
  - eexists d, l. split; [done|]. split; [done|]. split; [by left|done].
Qed.

Lemma seen_by_bots_append_only_witness :
  let env := mkEnv (Some "mongodb://db") (Some "alpha.k1,beta.k2") in
  let d := mkLink "http://x.test/a" (Some 1000) (Some "alpha") (Some "11") None
             3 [] [] None (Some "api_upload") (Some "see http://x.test/a")
             (Some "alpha") (Some 1000) (Some [Some "alpha"]) in
  let req2 := mkRequest "POST" (Some "Bearer beta.k2") None
                (mkBody (Some "again http://x.test/a") (Some "12") None
                   None (Some 9) None None None None) in
  let st1 := mkState ∅ {[ "http://x.test/a" := d ]} [] in
  ∃ d' l', links (snd (handler env 2000 2000 req2 st1)) !! "http://x.test/a"
           = Some d'
           ∧ seen_by_bots d' = Some l'
           ∧ (l' = [Some "alpha"]
              ∨ ((Some "beta" ∉ [Some "alpha"])
                 ∧ l' = [Some "alpha"] ++ [Some "beta"]))
           ∧ (NoDup [Some "alpha"] → NoDup l').
Proof.
  cbn zeta.
  refine (seen_by_bots_append_only _ 2000 2000
            (mkRequest "POST" (Some "Bearer beta.k2") None
               (mkBody (Some "again http://x.test/a") (Some "12") None
                  None (Some 9) None None None None))
            _ "http://x.test/a"
            (mkLink "http://x.test/a" (Some 1000) (Some "alpha") (Some "11") None
               3 [] [] None (Some "api_upload") (Some "see http://x.test/a")
               (Some "alpha") (Some 1000) (Some [Some "alpha"]))
            [Some "alpha"] _ eq_refl).
  reflexivity.
Defined.

(** X10. The loop over the URLs never gets past its first URL: the
    [updateOne] it issues for that URL is refused, which ends the loop and
    the call. So no response carries counts and no call changes the
    collection; a call adds at most one [updateOne] to the log; and a
    request that passes the guards of the handler adds exactly the first
    of the distinct URLs of its text, however many there are, and none
    when the text has no URL. *)
Theorem upsert_loop_stops_at_first_url env clock now req st :
  let out := handler env clock now req st in
  let us := Extract.unique (Extract.urls_of (text_of req)) in
  is_ingested (fst out) = false
  ∧ links (snd out) = links st
  ∧ (length (merge_calls (calls (snd out)))
     ≤ length (merge_calls (calls st)) + 1)%nat
  ∧ (accepts env clock req st = true →
       merge_calls (calls (snd out)) = merge_calls (calls st) ++ take 1 us).
Proof.
  cbn zeta.
  split; [apply handler_is_ingested|].
  split; [apply IngestFacts.handler_links|].
  split.
  - destruct (handler_calls env clock now req st)
      as [[Hc _]|(_ & _ & x & _ & Hc)]; rewrite Hc.
    + lia.
    + rewrite IngestFacts.merge_calls_logged, length_app. cbn. lia.
  - intros Hacc.
    rewrite (IngestFacts.handler_accepts _ _ now _ _ Hacc). cbn zeta.
    destruct (Extract.urls_of (text_of req)) as [|x xs].
    + cbn. by rewrite app_nil_r.
    + rewrite IngestFacts.unique_cons. cbn [snd calls take].
      apply IngestFacts.merge_calls_logged.
Qed.

Lemma upsert_loop_stops_at_first_url_witness :
  let env := mkEnv (Some "mongodb://db") (Some "alpha.k1,beta.k2") in
  let req := mkRequest "POST" (Some "Bearer beta.k2") None
               (mkBody (Some "http://x.test/a http://x.test/b, http://x.test/b")
                  (Some "12") None None (Some 9) None None None None) in
  let out := handler env 2000 2000 req (mkState ∅ ∅ []) in
  Extract.unique (Extract.urls_of (text_of req))
    = ["http://x.test/a"; "http://x.test/b"]
  ∧ merge_calls (calls (snd out)) = ["http://x.test/a"]
  ∧ links (snd out) = ∅.
Proof.
  cbn zeta.
  destruct (upsert_loop_stops_at_first_url
              (mkEnv (Some "mongodb://db") (Some "alpha.k1,beta.k2")) 2000 2000
              (mkRequest "POST" (Some "Bearer beta.k2") None
                 (mkBody (Some "http://x.test/a http://x.test/b, http://x.test/b")
                    (Some "12") None None (Some 9) None None None None))
              (mkState ∅ ∅ [])) as (_ & Hl & _ & Hc).
  split; [vm_compute; reflexivity|].
  split; [|exact Hl].
  etrans; [apply Hc; vm_compute; reflexivity|]. vm_compute. reflexivity.
Defined.

(** X11. Every record stays stored under its own URL: when each record
    of the collection carries, in its [url] field, the key it is stored
    under, the same holds after any call. With the map keyed by [url] this
    is the uniqueness of records per URL. *)
Theorem keyed_by_url_preserved env clock now req st :
  keyed_by_url (links st) →
  keyed_by_url (links (snd (handler env clock now req st))).
Proof.
  intros Hk u d'. rewrite handler_lookup.
  destruct (is_ingested _ && bool_decide _); [|apply Hk].
  intros Hd'. injection Hd' as <-. unfold upserted_doc. cbn.
  destruct (links st !! u) as [d|] eqn:E; cbn; [|done]. by apply Hk.
Qed.

Lemma keyed_by_url_preserved_witness :
  let d := mkLink "http://x.test/a" (Some 1000) (Some "alpha") (Some "11") None
             3 [] [] None (Some "api_upload") (Some "see http://x.test/a")
             (Some "alpha") (Some 1000) (Some [Some "alpha"]) in
  keyed_by_url
    (links (snd (handler (mkEnv (Some "mongodb://db") (Some "alpha.k1,beta.k2"))
                   2000 2000
                   (mkRequest "POST" (Some "Bearer beta.k2") None
                      (mkBody (Some "again http://x.test/a") (Some "12") None
                         None (Some 9) None None None None))
                   (mkState ∅ {[ "http://x.test/a" := d ]} [])))).
Proof.
  cbn zeta. apply keyed_by_url_preserved. intros u d H. cbn in H.
  by apply lookup_singleton_Some in H as [<- <-].
Defined.



End IngestMore.

(* ===================================================================== *)
(** * Further properties of the URL extraction *)
(* ===================================================================== *)

Module ExtractMore.
Import Extract Terms.

Lemma lower_space c : is_space (lower c) = is_space c.
Proof. destruct c as [[] [] [] [] [] [] [] []]; reflexivity. Qed.

Lemma lower_trailer c : is_trailer (lower c) = is_trailer c.
Proof. destruct c as [[] [] [] [] [] [] [] []]; reflexivity. Qed.

Lemma lower_colon c : lower c = ":"%char → c = ":"%char.
Proof.
  destruct c as [[] [] [] [] [] [] [] []]; vm_compute; intros H;
    (discriminate H || reflexivity).
Qed.

Lemma substring_0_S n c s :
  String.substring 0 (S n) (String c s) = String c (String.substring 0 n s).
Proof. reflexivity. Qed.

(** A literal matched at the head of [s] is matched at the head of every
    prefix of [s] long enough to hold it. *)
Lemma lit_ci_substring p : ∀ s r n,
  lit_ci p s = Some r →
  lit_ci p (String.substring 0 (String.length p + n) s)
  = Some (String.substring 0 n r).
Proof.
  induction p as [|pc pr IH]; intros s r n H.
  - cbn in H. injection H as ->. done.
  - destruct s as [|c s']; [discriminate|]. cbn [lit_ci] in H.
    destruct (ci_eqb pc c) eqn:E; [|discriminate].
    cbn [String.length Nat.add]. rewrite substring_0_S. cbn [lit_ci].
    rewrite E. by apply IH.
Qed.

(** A property of characters that does not tell a letter from its capital
    and holds of the literal holds of what the literal matched. *)
Lemma lit_ci_all_chars (Q : ascii → bool) p : ∀ s r n,
  (∀ c, Q (lower c) = Q c) →
  all_chars Q p = true →
  lit_ci p s = Some r →
  all_chars Q (String.substring 0 (String.length p + n) s)
  = all_chars Q (String.substring 0 n r).
Proof.
  induction p as [|pc pr IH]; intros s r n HQ Hp H.
  - cbn in H. injection H as ->. done.
  - destruct s as [|c s']; [discriminate|]. cbn [lit_ci] in H.
    destruct (ci_eqb pc c) eqn:E; [|discriminate].
    cbn [all_chars] in Hp. apply andb_prop in Hp as [Hpc Hpr].
    cbn [String.length Nat.add]. rewrite substring_0_S. cbn [all_chars].
    unfold ci_eqb in E. apply Ascii.eqb_eq in E.
    rewrite <- HQ, <- E, Hpc. cbn [andb]. by apply IH.
Qed.

Lemma nonspace_run_all s :
  all_chars not_space (String.substring 0 (nonspace_run s) s) = true.
Proof.
  induction s as [|c s IH]; [done|]. cbn [nonspace_run].
  destruct (is_space c) eqn:E; [done|].
  rewrite substring_0_S. cbn [all_chars]. unfold not_space at 1.
  by rewrite E, IH.
Qed.

Lemma not_space_lower c : not_space (lower c) = not_space c.
Proof. unfold not_space. by rewrite lower_space. Qed.

Lemma not_trailer_lower c : not_trailer (lower c) = not_trailer c.
Proof. unfold not_trailer. by rewrite lower_trailer. Qed.

(** What [tail_at] accepts, cut to the length it reports. *)
Lemma tail_at_spec s n :
  tail_at s = Some n →
  ∃ r, lit_ci "://" (String.substring 0 n s) = Some r
       ∧ all_chars not_space (String.substring 0 n s) = true.
Proof.
  unfold tail_at. destruct (lit_ci "://" s) as [r|] eqn:E; [|discriminate].
  destruct (nonspace_run r) as [|k] eqn:Ek; [discriminate|].
  intros H. injection H as <-.
  exists (String.substring 0 (S k) r). split.
  - apply (lit_ci_substring "://" s r (S k) E).
  - pose proof (lit_ci_all_chars not_space "://" s r (S k) not_space_lower
                  eq_refl E) as Ha.
    etrans; [exact Ha|]. rewrite <- Ek. apply nonspace_run_all.
Qed.

Lemma lit_ci_seq p1 p2 : ∀ x y z,
  lit_ci p1 x = Some y →
  lit_ci p2 y = Some z →
  lit_ci (String.append p1 p2) x = Some z.
Proof.
  induction p1 as [|pc pr IH]; intros x y z H1 H2.
  - cbn in H1. injection H1 as ->. exact H2.
  - destruct x as [|c x']; [discriminate|]. cbn [lit_ci] in H1.
    destruct (ci_eqb pc c) eqn:E; [|discriminate].
    change (String.append (String pc pr) p2)
      with (String pc (String.append pr p2)).
    cbn [lit_ci]. rewrite E. by apply (IH x' y z).
Qed.

(** What [match_url_at] accepts, cut to the length it reports: it begins
    with the scheme and has no white space. *)
Lemma match_url_at_spec s n :
  match_url_at s = Some n →
  has_scheme (String.substring 0 n s) = true
  ∧ all_chars not_space (String.substring 0 n s) = true.
Proof.
  unfold match_url_at. destruct (lit_ci "http" s) as [r|] eqn:E; [|discriminate].
  assert (Hwithout : ∀ m, option_map (λ k, (4 + k)%nat) (tail_at r) = Some m →
    has_scheme (String.substring 0 m s) = true
    ∧ all_chars not_space (String.substring 0 m s) = true).
  { intros m Hm. destruct (tail_at r) as [k|] eqn:Et; [|discriminate].
    injection Hm as <-. destruct (tail_at_spec r k Et) as (x & Hx & Hns).
    pose proof (lit_ci_substring "http" s r k E) as Hh.
    pose proof (lit_ci_all_chars not_space "http" s r k not_space_lower
                  eq_refl E) as Ha.
    split.
    - unfold has_scheme.
      pose proof (lit_ci_seq "http" "://" _ _ _ Hh Hx) as Hs.
      match goal with
      | |- context [lit_ci "http://" ?t] =>
          assert (Hs' : lit_ci "http://" t = Some x) by exact Hs
      end.
      by rewrite Hs'.
    - etrans; [exact Ha|exact Hns]. }
  destruct r as [|c r']; [apply Hwithout|].
  destruct (ci_eqb "s" c) eqn:Es; [|apply Hwithout].
  destruct (tail_at r') as [k|] eqn:Et; [|apply Hwithout].
  intros H. injection H as <-.
  destruct (tail_at_spec r' k Et) as (x & Hx & Hns).
  assert (E5 : lit_ci "https" s = Some r').
  { apply (lit_ci_seq "http" "s" s (String c r') r' E).
    cbn [lit_ci]. by rewrite Es. }
  pose proof (lit_ci_substring "https" s r' k E5) as Hh.
  pose proof (lit_ci_all_chars not_space "https" s r' k not_space_lower
                eq_refl E5) as Ha.
  split.
  - unfold has_scheme.
    pose proof (lit_ci_seq "https" "://" _ _ _ Hh Hx) as Hs.
    match goal with
    | |- context [lit_ci "https://" ?t] =>
        assert (Hs' : lit_ci "https://" t = Some x) by exact Hs
    end.
    rewrite Hs'. by destruct (lit_ci "http://" _).
  - etrans; [exact Ha|exact Hns].
Qed.

(** What the scan collects, whatever number of characters it starts by
    skipping. *)
Lemma scan_spec (text : string) : ∀ (skip : nat) (u : string),
  u ∈ scan text skip →
  has_scheme u = true ∧ all_chars not_space u = true.
Proof.
  induction text as [|c r IH]; intros skip u Hu; cbn [scan] in Hu.
  - by apply elem_of_nil in Hu.
  - destruct skip as [|k]; [|by apply (IH k)].
    destruct (match_url_at (String c r)) as [n|] eqn:E; [|by apply (IH 0%nat)].
    apply elem_of_cons in Hu as [->|Hu]; [|by apply (IH (n - 1)%nat)].
    by apply match_url_at_spec.
Qed.

(** X13. Every match of the pattern begins with [http://] or [https://],
    in letters of either case, and contains no white space. *)
Theorem matches_are_urls (text u : string) :
  u ∈ match_all text →
  has_scheme u = true ∧ all_chars not_space u = true.
Proof. unfold match_all. apply scan_spec. Qed.

Lemma matches_are_urls_witness :
  has_scheme "HTTPS://x.test/a)." = true
  ∧ all_chars not_space "HTTPS://x.test/a)." = true.
Proof.
  apply (matches_are_urls "see HTTPS://x.test/a). and more").
  vm_compute. apply list_elem_of_here.
Defined.

Lemma trim_cons_keep c r :
  is_trailer c = false →
  trim_trailing (String c r) = String c (trim_trailing r).
Proof. intros H. cbn [trim_trailing]. by rewrite H, andb_false_r. Qed.

(** The trim leaves alone a literal that has no character of its class. *)
Lemma lit_ci_trim p : ∀ m r,
  all_chars not_trailer p = true →
  lit_ci p m = Some r →
  lit_ci p (trim_trailing m) = Some (trim_trailing r).
Proof.
  induction p as [|pc pr IH]; intros m r Hp H.
  - cbn in H. injection H as ->. done.
  - destruct m as [|c m']; [discriminate|]. cbn [lit_ci] in H.
    destruct (ci_eqb pc c) eqn:E; [|discriminate].
    cbn [all_chars] in Hp. apply andb_prop in Hp as [Hpc Hpr].
    assert (Hc : is_trailer c = false).
    { unfold ci_eqb in E. apply Ascii.eqb_eq in E.
      rewrite <- lower_trailer, <- E. unfold not_trailer in Hpc.
      by destruct (is_trailer pc). }
    rewrite (trim_cons_keep c m' Hc). cbn [lit_ci]. rewrite E. by apply IH.
Qed.

Lemma trim_all_chars (Q : ascii → bool) m :
  all_chars Q m = true → all_chars Q (trim_trailing m) = true.
Proof.
  induction m as [|c r IH]; [done|]. cbn [all_chars trim_trailing].
  intros H. apply andb_prop in H as [Hc Hr].
  destruct (String.eqb (trim_trailing r) "" && is_trailer c); [done|].
  cbn [all_chars]. by rewrite Hc, IH.
Qed.

Lemma trim_fixed s :
  match last_char s with
  | Some c => is_trailer c = false
  | None => True
  end →
  trim_trailing s = s.
Proof.
  induction s as [|c r IH]; [done|]. cbn [trim_trailing].
  destruct r as [|c' r'].
  - cbn. intros ->. done.
  - intros H. change (last_char (String c (String c' r')))
      with (last_char (String c' r')) in H.
    rewrite (IH H). done.
Qed.

(** X14. Trimming is idempotent, and what it returns is what the handler
    stores: a string that does not end in a character of the class is
    left as it is, so a second trim of a stored URL changes nothing. *)
Theorem trim_is_idempotent (s : string) :
  trim_trailing (trim_trailing s) = trim_trailing s
  ∧ (match last_char s with
     | Some c => is_trailer c = false
     | None => True
     end → trim_trailing s = s).
Proof.
  split; [|apply trim_fixed].
  apply trim_fixed.
  destruct (ExtractFacts.trim_trailing_greedy s) as (t & _ & _ & H). exact H.
Qed.

Lemma trim_is_idempotent_witness :
  trim_trailing "http://x.test/a(1)" = "http://x.test/a(1"
  ∧ trim_trailing "http://x.test/a" = "http://x.test/a".
Proof.
  split; [vm_compute; reflexivity|].
  apply (trim_is_idempotent "http://x.test/a"). reflexivity.
Defined.

(** X15. Every URL the handler processes still begins with [http://] or
    [https://], has no white space, does not end in a character the trim
    removes, and is therefore never empty: the trim cannot eat into the
    scheme. *)
Theorem processed_urls_are_urls (text u : string) :
  u ∈ urls_of text →
  has_scheme u = true
  ∧ all_chars not_space u = true
  ∧ (∃ c, last_char u = Some c ∧ is_trailer c = false)
  ∧ u ≠ "".
Proof.
  unfold urls_of. intros Hu.
  apply list_elem_of_In, in_map_iff in Hu as (m & <- & Hm).
  apply list_elem_of_In, scan_spec in Hm as [Hs Hns].
  assert (Hscheme : has_scheme (trim_trailing m) = true).
  { unfold has_scheme in Hs |- *.
    destruct (lit_ci "http://" m) as [r|] eqn:E1.
    - by rewrite (lit_ci_trim "http://" m r eq_refl E1).
    - destruct (lit_ci "https://" m) as [r|] eqn:E2; [|discriminate].
      rewrite (lit_ci_trim "https://" m r eq_refl E2).
      destruct (lit_ci "http://" (trim_trailing m)); reflexivity. }
  assert (Hne : trim_trailing m ≠ "").
  { intros He. rewrite He in Hscheme. discriminate. }
  split; [exact Hscheme|]. split; [by apply trim_all_chars|]. split; [|done].
  destruct (ExtractFacts.trim_trailing_greedy m) as (t & _ & _ & H).
  destruct (last_char (trim_trailing m)) as [c|] eqn:El; [by exists c|].
  exfalso. apply Hne. clear -El.
  induction (trim_trailing m) as [|c [|c' r'] IH]; [done|discriminate|].
  cbn in El. specialize (IH El). discriminate IH.
Qed.

Lemma processed_urls_are_urls_witness :
  has_scheme "http://x.test/a" = true ∧ "http://x.test/a" ≠ "".
Proof.
  destruct (processed_urls_are_urls
              "see http://x.test/a. and http://x.test/a," "http://x.test/a")
    as (H1 & _ & _ & H4).
  - vm_compute. apply list_elem_of_here.
  - by split.
Defined.

Lemma lit_ci_has_char p ch : ∀ s r,
  lit_ci p s = Some r → has_char ch r = true → has_char ch s = true.
Proof.
  induction p as [|pc pr IH]; intros s r H Hr.
  - cbn in H. by injection H as ->.
  - destruct s as [|c s']; [discriminate|]. cbn [lit_ci] in H.
    destruct (ci_eqb pc c); [|discriminate].
    cbn [has_char]. rewrite (IH s' r H Hr). apply orb_true_r.
Qed.

Lemma tail_at_colon s n : tail_at s = Some n → has_char ":"%char s = true.
Proof.
  unfold tail_at. destruct (lit_ci "://" s) as [r|] eqn:E; [|discriminate].
  intros _. destruct s as [|c s']; [discriminate|]. cbn [lit_ci] in E.
  destruct (ci_eqb ":" c) eqn:Ec; [|discriminate].
  unfold ci_eqb in Ec. apply Ascii.eqb_eq in Ec. symmetry in Ec.
  apply lower_colon in Ec. subst c. done.
Qed.

Lemma match_url_at_colon s n :
  match_url_at s = Some n → has_char ":"%char s = true.
Proof.
  unfold match_url_at. destruct (lit_ci "http" s) as [r|] eqn:E; [|discriminate].
  assert (Hr : has_char ":"%char r = true → has_char ":"%char s = true)
    by apply (lit_ci_has_char "http" ":"%char s r E).
  assert (Hwithout : ∀ m, option_map (λ k, (4 + k)%nat) (tail_at r) = Some m →
            has_char ":"%char s = true).
  { intros m Hm. destruct (tail_at r) as [k|] eqn:Et; [|discriminate].
    apply Hr. by apply (tail_at_colon r k). }
  destruct r as [|c r']; [apply Hwithout|].
  destruct (ci_eqb "s" c); [|apply Hwithout].
  destruct (tail_at r') as [k|] eqn:Et; [|apply Hwithout].
  intros _. apply Hr. cbn [has_char].
  rewrite (tail_at_colon r' k Et). apply orb_true_r.
Qed.

Lemma scan_no_colon s : ∀ skip,
  has_char ":"%char s = false → scan s skip = [].
Proof.
  induction s as [|c r IH]; intros skip H; [done|].
  assert (Hr : has_char ":"%char r = false).
  { cbn [has_char] in H. by apply orb_false_elim in H as [_ ?]. }
  cbn [scan]. destruct skip as [|k]; [|by apply IH].
  destruct (match_url_at (String c r)) as [n|] eqn:E; [|by apply IH].
  apply match_url_at_colon in E. congruence.
Qed.

(** X16. A text without a colon has no URL: the extraction returns the
    empty list (in particular for the empty text), and a submission with
    such a text is never answered with counts or with a database error,
    whether or not the database is configured. *)
Theorem no_colon_no_url env clock now req st :
  has_char ":"%char (Ingest.text_of req) = false →
  urls_of (Ingest.text_of req) = []
  ∧ reaches_database (fst (Ingest.handler env clock now req st)) = false.
Proof.
  intros H.
  assert (Hu : urls_of (Ingest.text_of req) = []).
  { unfold urls_of, match_all. by rewrite scan_no_colon. }
  split; [exact Hu|]. unfold Ingest.handler.
  destruct (negb (String.eqb (Ingest.method req) "POST")); [done|].
  destruct (negb (Js.startsWith "Bearer " (Ingest.auth_of req))); [done|].
  destruct (Limiter.checkRateLimit clock (Ingest.botId_of req) _ _ _)
    as [allowed rl].
  destruct (negb allowed); [done|].
  destruct (negb (bool_decide (Ingest.token_of req ∈ Ingest.validTokens env)));
    [done|].
  destruct (negb (Js.truthy (Ingest.b_tweet_text (Ingest.body req)))
            || negb (Js.truthy (Ingest.b_tweet_id (Ingest.body req)))); [done|].
  by rewrite Hu.
Qed.

Lemma no_colon_no_url_witness :
  fst (Ingest.handler (Ingest.mkEnv None (Some "alpha.k1")) 1000 1001
         (Ingest.mkRequest "POST" (Some "Bearer alpha.k1") None
            (Ingest.mkBody (Some "no link here, see www.x.test/a") (Some "1")
               None None None None None None None))
         (Ingest.mkState ∅ ∅ [])) = Ingest.NoUrls.
Proof.
  pose proof (no_colon_no_url (Ingest.mkEnv None (Some "alpha.k1")) 1000 1001
         (Ingest.mkRequest "POST" (Some "Bearer alpha.k1") None
            (Ingest.mkBody (Some "no link here, see www.x.test/a") (Some "1")
               None None None None None None None))
         (Ingest.mkState ∅ ∅ []) eq_refl) as [Hu _].
  unfold Ingest.handler. rewrite Hu. vm_compute. reflexivity.
Defined.

End ExtractMore.

(* ===================================================================== *)
(** * Properties of the registration handler *)
(* ===================================================================== *)

Module RegisterMore.
Import Register Terms.

Lemma lower_alnum_fixed c :
  is_lower_alnum c = true → toLowerCase_char c = c.
Proof.
  destruct c as [[] [] [] [] [] [] [] []]; vm_compute; intros H;
    (discriminate H || reflexivity).
Qed.

Lemma lower_alnum_not_dot c :
  is_lower_alnum c = true → Ascii.eqb c "."%char = false.
Proof.
  destruct c as [[] [] [] [] [] [] [] []]; vm_compute; intros H;
    (discriminate H || reflexivity).
Qed.

Lemma normalize_all_chars n : all_chars is_lower_alnum (normalize n) = true.
Proof.
  induction n as [|c r IH]; [done|]. cbn [normalize].
  destruct (is_lower_alnum (toLowerCase_char c)) eqn:E; [|done].
  cbn [all_chars]. by rewrite E, IH.
Qed.

Lemma normalize_fixed s :
  all_chars is_lower_alnum s = true → normalize s = s.
Proof.
  induction s as [|c r IH]; [done|]. cbn [all_chars normalize].
  intros H. apply andb_prop in H as [Hc Hr].
  rewrite (lower_alnum_fixed c Hc), Hc. by rewrite IH.
Qed.

Lemma alnum_no_dot s :
  all_chars is_lower_alnum s = true → has_char "."%char s = false.
Proof.
  induction s as [|c r IH]; [done|]. cbn [all_chars has_char].
  intros H. apply andb_prop in H as [Hc Hr].
  by rewrite (lower_alnum_not_dot c Hc), IH.
Qed.

(** X17. The identifier derived from a bot name holds only the characters
    [a-z] and [0-9], so it never has a full stop, and deriving it again
    from itself gives the same identifier: names that differ only in
    case, spacing or punctuation share one identifier. *)
Theorem botId_is_lower_alnum (botName : string) :
  all_chars is_lower_alnum (normalize botName) = true
  ∧ has_char "."%char (normalize botName) = false
  ∧ normalize (normalize botName) = normalize botName.
Proof.
  pose proof (normalize_all_chars botName) as H.
  split; [exact H|]. split; [by apply alnum_no_dot|by apply normalize_fixed].
Qed.

Lemma split_dot_first_token a b :
  has_char "."%char a = false →
  Js.split_dot_first (fullToken a b) = a.
Proof.
  unfold fullToken. induction a as [|c r IH]; intros H.
  - reflexivity.
  - cbn [has_char] in H. apply orb_false_elim in H as [Hc Hr].
    change (String.append (String c r) (String "."%char b))
      with (String c (String.append r (String "."%char b))).
    cbn [Js.split_dot_first]. rewrite Hc. by rewrite IH.
Qed.

(** X18. The token a registration issues leads the ingest handler back to
    the registered identifier: the part before the first full stop of
    [botId.suffix] is [botId], whatever the suffix, so a submission
    carrying the token is attributed to [botId] when it is not empty. A
    name without any letter or digit registers the empty identifier, and
    its token is attributed to the caller's address or to [anonymous]. *)
Theorem issued_token_identifies_bot (botName tokenSuffix : string)
    (req_ip : option string) :
  let botId := normalize botName in
  let token := fullToken botId tokenSuffix in
  Js.split_dot_first token = botId
  ∧ Js.slice 7 (String.append "Bearer " token) = token
  ∧ (botId ≠ "" → Ingest.derive_botId token req_ip = botId)
  ∧ (botId = "" →
       Ingest.derive_botId token req_ip
       = if Js.truthy req_ip then default "" req_ip else "anonymous").
Proof.
  cbn zeta.
  assert (Hs : Js.split_dot_first (fullToken (normalize botName) tokenSuffix)
               = normalize botName).
  { apply split_dot_first_token, alnum_no_dot, normalize_all_chars. }
  split; [exact Hs|]. split; [apply JsFacts.slice_bearer|].
  destruct (IngestMore.derive_botId_cases
              (fullToken (normalize botName) tokenSuffix) req_ip)
    as (_ & _ & H3 & H4).
  rewrite Hs in H3, H4. by split.
Qed.

Lemma issued_token_identifies_bot_witness :
  Ingest.derive_botId (fullToken (normalize "Watch Bot #7") "00ff") None
  = "watchbot7"
  ∧ Ingest.derive_botId (fullToken (normalize "!!!") "00ff") None = "anonymous".
Proof.
  destruct (issued_token_identifies_bot "Watch Bot #7" "00ff" None)
    as (_ & _ & H3 & _).
  destruct (issued_token_identifies_bot "!!!" "00ff" None)
    as (_ & _ & _ & H4).
  split.
  - etrans; [apply H3; vm_compute; discriminate|]. vm_compute. reflexivity.
  - etrans; [apply H4; vm_compute; reflexivity|]. reflexivity.
Defined.

Lemma find_snoc {A} (f : A → bool) (l : list A) (x : A) :
  List.find f l = None →
  List.find f (l ++ [x]) = if f x then Some x else None.
Proof.
  induction l as [|y l IH]; cbn; [done|].
  destruct (f y); [discriminate|]. exact IH.
Qed.

Lemma findOne_None_not_in botId bots :
  findOne botId bots = None → botId ∉ map r_botId bots.
Proof.
  unfold findOne. intros H Hin.
  apply list_elem_of_In, in_map_iff in Hin as (r & Hr & Hin).
  pose proof (List.find_none _ _ H r Hin) as Hf. cbn in Hf.
  rewrite Hr, String.eqb_refl in Hf. discriminate.
Qed.

(** What the handler does once its guards have passed. *)
Lemma handler_created_inv env tokenSuffix now req bots id tok :
  fst (handler env tokenSuffix now req bots) = Created id tok →
  method req = "POST"
  ∧ Js.truthy (ADMIN_SECRET env) = true
  ∧ Js.startsWith "Bearer " (default "" (Js.or_else (authorization req) (Some "")))
    = true
  ∧ Js.slice 7 (default "" (Js.or_else (authorization req) (Some "")))
    = default "" (ADMIN_SECRET env)
  ∧ Js.truthy (b_botName req) = true
  ∧ Js.truthy (b_owner req) = true
  ∧ Js.truthy (MONGODB_URI env) = true
  ∧ id = normalize (default "" (b_botName req))
  ∧ tok = fullToken id tokenSuffix
  ∧ findOne id bots = None
  ∧ snd (handler env tokenSuffix now req bots)
    = bots ++ [mkBotRecord id (default "" (b_botName req))
                 (default "" (Js.or_else (b_description req) (Some "")))
                 (default "" (b_owner req)) tok now None true 0 None].
Proof.
  unfold handler.
  destruct (String.eqb (method req) "POST") eqn:Em; [|discriminate].
  apply String.eqb_eq in Em. cbn [negb].
  destruct (Js.truthy (ADMIN_SECRET env)); [|discriminate]. cbn [negb orb].
  destruct (Js.startsWith "Bearer " _); [|discriminate]. cbn [negb orb].
  destruct (String.eqb (Js.slice 7 _) _) eqn:Es; [|discriminate].
  apply String.eqb_eq in Es. cbn [negb].
  destruct (Js.truthy (b_botName req)); [|discriminate].
  destruct (Js.truthy (b_owner req)); [|discriminate]. cbn [negb orb].
  destruct (Js.truthy (MONGODB_URI env)); [|discriminate]. cbn [negb].
  destruct (findOne _ bots) eqn:Ef; [discriminate|].
  cbn [fst snd]. intros H. injection H as <- <-. by repeat split.
Qed.

(** X19. A registration is stored once. A 201 response means that no
    record had the identifier, and that exactly one record was appended:
    it carries the identifier, the issued token, the active flag and a
    zero submission count, and a lookup by identifier now finds it. The
    same request repeated, with whatever random suffix and clock reading,
    is answered 409 and stores nothing; and a collection whose identifiers
    are pairwise distinct stays so. *)
Theorem registration_stores_once env tokenSuffix now req bots id tok :
  fst (handler env tokenSuffix now req bots) = Created id tok →
  let bots' := snd (handler env tokenSuffix now req bots) in
  findOne id bots = None
  ∧ (∃ r, bots' = bots ++ [r]
          ∧ findOne id bots' = Some r
          ∧ r_botId r = id ∧ r_token r = tok
          ∧ r_isActive r = true ∧ r_totalSubmissions r = 0)
  ∧ (∀ tokenSuffix' now',
       handler env tokenSuffix' now' req bots' = (Conflict, bots'))
  ∧ (NoDup (map r_botId bots) → NoDup (map r_botId bots')).
Proof.
  intros Hc. cbn zeta.
  destruct (handler_created_inv _ _ _ _ _ _ _ Hc)
    as (Hm & Hsec & Hb & Hsl & Hn & Ho & Huri & Hid & Htok & Hnone & Hbots).
  rewrite Hbots.
  set (r := mkBotRecord id _ _ _ tok now None true 0 None).
  assert (Hfind : findOne id (bots ++ [r]) = Some r).
  { unfold findOne. rewrite find_snoc by exact Hnone.
    cbn. by rewrite String.eqb_refl. }
  split; [exact Hnone|]. split.
  { exists r. by repeat split. }
  split.
  - intros tokenSuffix' now'. unfold handler.
    rewrite Hm, Hsec, Hb, Hsl, Hn, Ho, Huri.
    change (negb (String.eqb "POST" "POST")) with false.
    rewrite String.eqb_refl. cbn [negb orb].
    rewrite <- Hid, Hfind. done.
  - intros Hnd. rewrite map_app. cbn [map].
    apply NoDup_app. split; [done|]. split; [|apply NoDup_singleton].
    intros x Hx Hx'. apply list_elem_of_singleton in Hx'. subst x.
    by apply (findOne_None_not_in id bots Hnone).
Qed.

Lemma registration_stores_once_witness :
  let env := mkEnv (Some "mongodb://db") (Some "s3cret") in
  let req := mkRequest "POST" (Some "Bearer s3cret") (Some "Watch Bot #7")
               None (Some "ops") in
  let out := handler env "00ff" 1000 req [] in
  fst out = Created "watchbot7" "watchbot7.00ff"
  ∧ fst (handler env "11aa" 2000 req (snd out)) = Conflict.
Proof.
  cbn zeta. split; [vm_compute; reflexivity|].
  destruct (registration_stores_once
              (mkEnv (Some "mongodb://db") (Some "s3cret")) "00ff" 1000
              (mkRequest "POST" (Some "Bearer s3cret") (Some "Watch Bot #7")
                 None (Some "ops"))
              [] "watchbot7" "watchbot7.00ff") as (_ & _ & H & _).
  - vm_compute. reflexivity.
  - by rewrite (H "11aa" 2000).
Defined.

(** X20. Only a 201 goes with a change of the collection of bots, and a
    201 is given only to a request that carries the configured admin
    secret: every other response leaves the collection as it was; when
    [ADMIN_SECRET] is unset or empty every request is answered 405 or 401;
    and a 201 implies a non-empty secret equal to what follows [Bearer ]
    in the Authorization header. *)
Theorem registration_needs_admin_secret env tokenSuffix now req bots :
  let out := handler env tokenSuffix now req bots in
  (is_created (fst out) = false → snd out = bots)
  ∧ (Js.truthy (ADMIN_SECRET env) = false →
       fst out = MethodNotAllowed ∨ fst out = AdminRequired)
  ∧ (is_created (fst out) = true →
       ∃ secret, ADMIN_SECRET env = Some secret ∧ secret ≠ ""
                 ∧ Js.startsWith "Bearer " (default "" (authorization req)) = true
                 ∧ Js.slice 7 (default "" (authorization req)) = secret).
Proof.
  cbn zeta. split; [|split].
  - unfold handler.
    destruct (negb (String.eqb (method req) "POST")); [done|].
    destruct (negb (Js.truthy (ADMIN_SECRET env)) || _ || _); [done|].
    destruct (negb (Js.truthy (b_botName req)) || _); [done|].
    destruct (negb (Js.truthy (MONGODB_URI env))); [done|].
    destruct (findOne _ bots); [done|discriminate].
  - intros Hs. unfold handler. rewrite Hs.
    destruct (negb (String.eqb (method req) "POST")); [by left|by right].
  - intros Hc.
    destruct (fst (handler env tokenSuffix now req bots))
      as [| | | |id tok|] eqn:Er; try discriminate Hc.
    destruct (handler_created_inv _ _ _ _ _ _ _ Er)
      as (_ & Hsec & Hb & Hsl & _).
    destruct (ADMIN_SECRET env) as [secret|]; [|discriminate].
    exists secret. split; [done|]. cbn in Hsec.
    destruct (String.eqb secret "") eqn:E; [discriminate|].
    apply String.eqb_neq in E. split; [done|].
    destruct (authorization req) as [a|]; [|discriminate Hb].
    unfold Js.or_else in Hb, Hsl. cbn in Hb, Hsl.
    destruct (negb (String.eqb a "")) eqn:Ea; cbn in Hb, Hsl;
      [by split|discriminate Hb].
Qed.

Lemma registration_needs_admin_secret_witness :
  let out := handler (mkEnv (Some "mongodb://db") None) "00ff" 1000
               (mkRequest "POST" (Some "Bearer ") (Some "Watch Bot")
                  None (Some "ops")) [] in
  (fst out = MethodNotAllowed ∨ fst out = AdminRequired) ∧ snd out = [].
Proof.
  cbn zeta.
  destruct (registration_needs_admin_secret
              (mkEnv (Some "mongodb://db") None) "00ff" 1000
              (mkRequest "POST" (Some "Bearer ") (Some "Watch Bot")
                 None (Some "ops")) []) as (H1 & H2 & _).
  split; [apply H2; reflexivity|apply H1; vm_compute; reflexivity].
Defined.

End RegisterMore.

(* ===================================================================== *)
(** * Further properties of the links readers *)
(* ===================================================================== *)

Module LinksMore.
Import Store Links Terms.

Lemma parseInt_or_nonzero s d : d ≠ 0 → parseInt_or s d ≠ 0.
Proof.
  intros Hd. unfold parseInt_or.
  destruct (parseInt s) as [[|n|n]|]; done.
Qed.

(** What the paginated response is made of. *)
Lemma handler_paginated_inv (regex_test : string → string → bool)
    (Date_of : string → Z) uri q col l cp tp ti ipp hn hp s1 s2 s3 s4 :
  handler regex_test Date_of uri q col
    = Paginated l cp tp ti ipp hn hp s1 s2 s3 s4 →
  let found := matching regex_test Date_of q col in
  cp = Z.max 1 (parseInt_or (default "1" (page q)) 1)
  ∧ ipp = Z.min 100 (Z.max 1 (parseInt_or (default "50" (limit q)) 50))
  ∧ ti = Z.of_nat (length found)
  ∧ tp = (ti + ipp - 1) / ipp
  ∧ hn = (cp <? tp) ∧ hp = (1 <? cp)
  ∧ l = take (Z.to_nat ipp) (drop (Z.to_nat ((cp - 1) * ipp)) (sort found)).
Proof.
  unfold handler. destruct (negb (Js.truthy uri)); [discriminate|].
  fold (matching regex_test Date_of q col).
  destruct (negb (Js.truthy (page q)) && negb (Js.truthy (limit q))
            && (Z.of_nat (length (matching regex_test Date_of q col)) <=? 500));
    [discriminate|].
  intros H. injection H as <- <- <- <- <- <- <- _ _ _ _. by repeat split.
Qed.

(** X21. The paginated response is consistent with itself. The page size
    is between 1 and 100 and the page number at least 1, whatever the
    parameters say (missing, non-numeric, zero or negative values fall
    back to page 1 and size 50); [totalItems] is the number of matching
    records and [totalPages] the least number of pages that holds them;
    the page carries the records left after the skipped ones, at most a
    page size of them and none beyond the last page; [hasNext] is true
    exactly when records remain after this page and [hasPrev] exactly when
    the page is not the first. *)
Theorem pagination_is_consistent (regex_test : string → string → bool)
    (Date_of : string → Z) uri q col l cp tp ti ipp hn hp s1 s2 s3 s4 :
  handler regex_test Date_of uri q col
    = Paginated l cp tp ti ipp hn hp s1 s2 s3 s4 →
  1 ≤ ipp ≤ 100
  ∧ 1 ≤ cp
  ∧ ti = Z.of_nat (length (matching regex_test Date_of q col))
  ∧ (tp - 1) * ipp < ti ≤ tp * ipp
  ∧ Z.of_nat (length l) = Z.max 0 (Z.min ipp (ti - (cp - 1) * ipp))
  ∧ (hn = true ↔ cp * ipp < ti)
  ∧ (hp = true ↔ 1 < cp).
Proof.
  intros H. apply handler_paginated_inv in H. cbn zeta in H.
  destruct H as (Hcp & Hipp & Hti & Htp & Hhn & Hhp & Hl).
  assert (Hb : 1 ≤ ipp ≤ 100) by lia.
  assert (Hc : 1 ≤ cp) by lia.
  assert (Hdiv : (tp - 1) * ipp < ti ≤ tp * ipp).
  { pose proof (Z.div_mod (ti + ipp - 1) ipp ltac:(lia)) as Hdm.
    pose proof (Z.mod_pos_bound (ti + ipp - 1) ipp ltac:(lia)) as Hm.
    rewrite <- Htp in Hdm. nia. }
  split; [exact Hb|]. split; [exact Hc|]. split; [exact Hti|].
  split; [exact Hdiv|]. split; [|split].
  - rewrite Hl, length_take, length_drop, LinksFacts.sort_length.
    assert (Hsk : 0 ≤ (cp - 1) * ipp) by nia.
    revert Hsk. generalize ((cp - 1) * ipp). intros sk Hsk.
    rewrite Hti. lia.
  - rewrite Hhn, Z.ltb_lt. nia.
  - rewrite Hhp, Z.ltb_lt. done.
Qed.

Lemma pagination_is_consistent_witness :
  ∃ l tp hn hp s1 s2 s3 s4,
    handler (λ _ _, true) (λ _, 0) (Some "mongodb://db")
      (mkQuery (Some "0") (Some "1000") None None None None) ∅
    = Paginated l 1 tp 0 100 hn hp s1 s2 s3 s4
    ∧ (tp - 1) * 100 < 0 ≤ tp * 100 ∧ (hn = true ↔ 1 * 100 < 0).
Proof.
  eexists _, _, _, _, _, _, _, _.
  assert (H : handler (λ _ _, true) (λ _, 0) (Some "mongodb://db")
                (mkQuery (Some "0") (Some "1000") None None None None) ∅
              = Paginated [] 1 0 0 100 false false "" "" "" "")
    by (vm_compute; reflexivity).
  split; [exact H|].
  destruct (pagination_is_consistent _ _ _ _ _ _ _ _ _ _ _ _ _ _ _ _ H)
    as (_ & _ & _ & H4 & _ & H6 & _).
  split; [exact H4|exact H6].
Defined.

Lemma elem_of_insert_sorted d x l :
  x ∈ insert_sorted d l ↔ x = d ∨ x ∈ l.
Proof.
  induction l as [|y l IH]; cbn.
  - rewrite list_elem_of_singleton, elem_of_nil. tauto.
  - destruct (comes_first d y).
    + by rewrite elem_of_cons.
    + rewrite !elem_of_cons, IH. tauto.
Qed.

Lemma elem_of_sort x l : x ∈ sort l ↔ x ∈ l.
Proof.
  unfold sort. induction l as [|y l IH]; cbn; [done|].
  rewrite elem_of_insert_sorted, elem_of_cons, IH. done.
Qed.

Lemma elem_of_docs (col : gmap string Link) d :
  d ∈ docs col ↔ ∃ u, col !! u = Some d.
Proof.
  unfold docs. rewrite list_elem_of_In, in_map_iff. split.
  - intros ([u d'] & Hd & Hin). cbn in Hd. subst d'. exists u.
    by apply elem_of_map_to_list, list_elem_of_In.
  - intros (u & Hu). exists (u, d). split; [done|].
    by apply list_elem_of_In, elem_of_map_to_list.
Qed.

Lemma response_links_found (regex_test : string → string → bool)
    (Date_of : string → Z) uri q col d :
  d ∈ response_links (handler regex_test Date_of uri q col) →
  d ∈ matching regex_test Date_of q col.
Proof.
  unfold handler. destruct (negb (Js.truthy uri)).
  { cbn. intros H. by apply elem_of_nil in H. }
  fold (matching regex_test Date_of q col).
  destruct (negb (Js.truthy (page q)) && negb (Js.truthy (limit q)) && _);
    cbn [response_links]; intros H.
  - apply elem_of_sort. exact (subseteq_take _ _ d H).
  - apply elem_of_sort.
    exact (subseteq_drop _ _ d (subseteq_take _ _ d H)).
Qed.

(** X22. Every record of a response, legacy or paginated, is a record of
    the collection that passes the filter of the request. With
    [severity=high] its score is at least 7, with [medium] at least 4 and
    below 7, with [low] below 4; any other value of [severity], such as
    one in capitals, constrains nothing. A non-blank [search] is tested
    against the record's URL after trimming. *)
Theorem responses_respect_filter (regex_test : string → string → bool)
    (Date_of : string → Z) uri q col d :
  d ∈ response_links (handler regex_test Date_of uri q col) →
  (∃ u, col !! u = Some d)
  ∧ matches regex_test (filter_of Date_of q) d = true
  ∧ (severity q = Some "high" → 7 ≤ severity_score d)
  ∧ (severity q = Some "medium" → 4 ≤ severity_score d < 7)
  ∧ (severity q = Some "low" → severity_score d < 4)
  ∧ (trim (default "" (search q)) ≠ "" →
       regex_test (trim (default "" (search q))) (url d) = true)
  ∧ (∀ v, severity q = Some v → v ≠ "high" → v ≠ "medium" → v ≠ "low" →
       f_severity_gte (filter_of Date_of q) = None
       ∧ f_severity_lt (filter_of Date_of q) = None).
Proof.
  intros Hd. apply response_links_found in Hd.
  unfold matching, find in Hd.
  apply list_elem_of_In, filter_In in Hd as [Hin Hm].
  apply list_elem_of_In in Hin. fold (docs col) in Hin.
  apply elem_of_docs in Hin.
  split; [exact Hin|]. split; [exact Hm|].
  unfold matches in Hm.
  apply andb_prop in Hm as [Hm _]. apply andb_prop in Hm as [Hm _].
  apply andb_prop in Hm as [Hm Hlt]. apply andb_prop in Hm as [Hurl Hgte].
  unfold filter_of, build_filter in *. cbn in *.
  split; [|split; [|split; [|split]]].
  - intros Hs. rewrite Hs in Hgte. cbn in Hgte. lia.
  - intros Hs. rewrite Hs in Hgte, Hlt. cbn in Hgte, Hlt. lia.
  - intros Hs. rewrite Hs in Hlt. cbn in Hlt. lia.
  - intros Hne. apply String.eqb_neq in Hne. rewrite Hne in Hurl. exact Hurl.
  - intros v Hs H1 H2 H3. rewrite Hs. cbn.
    apply String.eqb_neq in H1, H2, H3. by rewrite H1, H2, H3.
Qed.

Lemma responses_respect_filter_witness :
  let d := mkLink "http://x.test/a" (Some 5) (Some "alpha") (Some "11") None
             9 [] [] None None None (Some "alpha") (Some 1000)
             (Some [Some "alpha"]) in
  7 ≤ severity_score d.
Proof.
  cbn zeta.
  refine (proj1 (proj2 (proj2
            (responses_respect_filter (λ _ _, true) (λ _, 0)
               (Some "mongodb://db")
               (mkQuery None None None (Some "high") None None)
               {[ "http://x.test/a" :=
                    mkLink "http://x.test/a" (Some 5) (Some "alpha") (Some "11")
                      None 9 [] [] None None None (Some "alpha") (Some 1000)
                      (Some [Some "alpha"]) ]}
               _ _))) eq_refl).
  vm_compute. apply list_elem_of_here.
Defined.

Lemma key_leb_total a b : key_leb a b = true ∨ key_leb b a = true.
Proof. destruct a, b; cbn; rewrite ?Z.leb_le; (tauto || lia). Qed.

Lemma key_leb_trans a b c :
  key_leb a b = true → key_leb b c = true → key_leb a c = true.
Proof. destruct a, b, c; cbn; rewrite ?Z.leb_le; (done || lia). Qed.

Lemma key_leb_antisym a b :
  key_leb a b = true → key_leb b a = true → a = b.
Proof.
  destruct a, b; cbn; rewrite ?Z.leb_le; try done.
  intros. f_equal. lia.
Qed.

Lemma comes_first_total a b :
  comes_first a b = true ∨ comes_first b a = true.
Proof.
  unfold comes_first.
  destruct (decide (updated_at a = updated_at b)) as [E|E].
  - rewrite decide_True by done. apply key_leb_total.
  - rewrite decide_False by done.
    destruct (key_leb_total (updated_at a) (updated_at b)); tauto.
Qed.

Lemma comes_first_trans a b c :
  comes_first a b = true → comes_first b c = true → comes_first a c = true.
Proof.
  unfold comes_first.
  destruct (decide (updated_at a = updated_at b)) as [E1|E1];
    destruct (decide (updated_at b = updated_at c)) as [E2|E2];
    destruct (decide (updated_at a = updated_at c)) as [E3|E3];
    intros H1 H2; try congruence.
  - by apply (key_leb_trans _ (created_at b)).
  - exfalso. apply E1. apply key_leb_antisym; [by rewrite E3|done].
  - by apply (key_leb_trans _ (updated_at b)).
Qed.

Lemma insert_sorted_ordered d l : ordered l → ordered (insert_sorted d l).
Proof.
  induction l as [|x l IH]; intros Hl; cbn.
  - by split.
  - destruct Hl as [Hx Hl]. destruct (comes_first d x) eqn:E.
    + split; [|by split]. constructor; [done|].
      eapply Forall_impl; [exact Hx|]. cbn. intros y Hy.
      by apply (comes_first_trans d x y).
    + split; [|by apply IH].
      apply Forall_forall. intros y Hy.
      apply elem_of_insert_sorted in Hy as [->|Hy].
      * destruct (comes_first_total x d) as [?|?]; [done|congruence].
      * rewrite Forall_forall in Hx. by apply Hx.
Qed.

Lemma sort_ordered l : ordered (sort l).
Proof.
  unfold sort. induction l as [|x l IH]; cbn; [done|].
  by apply insert_sorted_ordered.
Qed.

Lemma ordered_drop l : ∀ n, ordered l → ordered (drop n l).
Proof.
  induction l as [|x l IH]; intros [|n] Hl; try done.
  cbn. apply IH. by destruct Hl.
Qed.

Lemma ordered_take l : ∀ n, ordered l → ordered (take n l).
Proof.
  induction l as [|x l IH]; intros [|n] Hl; try done.
  destruct Hl as [Hx Hl]. cbn. split; [by apply Forall_take|by apply IH].
Qed.

(** X23. The records of every response come newest first: each record
    has an [updated_at] not earlier than that of every record after it,
    and among records with the same [updated_at] a [created_at] not
    earlier; a record without [updated_at] comes after all that have
    one. *)
Theorem responses_are_ordered (regex_test : string → string → bool)
    (Date_of : string → Z) uri q col :
  ordered (response_links (handler regex_test Date_of uri q col))
  ∧ ∀ a b rest,
      response_links (handler regex_test Date_of uri q col) = a :: rest →
      b ∈ rest →
      key_leb (updated_at b) (updated_at a) = true
      ∧ (updated_at a = updated_at b →
           key_leb (created_at b) (created_at a) = true).
Proof.
  assert (Ho : ordered (response_links (handler regex_test Date_of uri q col))).
  { unfold handler. destruct (negb (Js.truthy uri)); [done|].
    destruct (negb (Js.truthy (page q)) && negb (Js.truthy (limit q)) && _);
      cbn [response_links].
    - apply ordered_take, sort_ordered.
    - apply ordered_take, ordered_drop, sort_ordered. }
  split; [exact Ho|].
  intros a b rest Hr Hb. rewrite Hr in Ho. destruct Ho as [Ha _].
  rewrite Forall_forall in Ha. specialize (Ha b Hb).
  unfold comes_first in Ha.
  destruct (decide (updated_at a = updated_at b)) as [E|E].
  - split; [|done]. rewrite E.
    destruct (key_leb_total (updated_at b) (updated_at b)); done.
  - split; [done|]. intros E'. done.
Qed.

Lemma responses_are_ordered_witness :
  let older := mkLink "http://x.test/a" (Some 5) None None None 3 [] [] None
                 None None (Some "alpha") (Some 1000) None in
  let newer := mkLink "http://x.test/b" (Some 6) None None None 9 [] [] None
                 None None (Some "beta") (Some 2000) None in
  key_leb (updated_at older) (updated_at newer) = true.
Proof.
  cbn zeta.
  refine (proj1 (proj2 (responses_are_ordered (λ _ _, true) (λ _, 0)
            (Some "mongodb://db") (mkQuery None None None None None None)
            {[ "http://x.test/a" :=
                 mkLink "http://x.test/a" (Some 5) None None None 3 [] [] None
                   None None (Some "alpha") (Some 1000) None;
               "http://x.test/b" :=
                 mkLink "http://x.test/b" (Some 6) None None None 9 [] [] None
                   None None (Some "beta") (Some 2000) None ]})
            _ _ [_] _ _)).
  - vm_compute. reflexivity.
  - apply list_elem_of_here.
Defined.

End LinksMore.

Module LinksV1More.
Import Store Terms.

Lemma v1_insert_sorted_length d l :
  length (LinksV1.insert_sorted d l) = S (length l).
Proof.
  induction l as [|x l IH]; cbn; [done|].
  destruct (LinksV1.comes_first d x); cbn; [done|]. by rewrite IH.
Qed.

Lemma v1_sort_length l : length (LinksV1.sort l) = length l.
Proof.
  unfold LinksV1.sort. induction l as [|x l IH]; cbn; [done|].
  by rewrite v1_insert_sorted_length, IH.
Qed.

Lemma v1_elem_of_insert_sorted d x l :
  x ∈ LinksV1.insert_sorted d l ↔ x = d ∨ x ∈ l.
Proof.
  induction l as [|y l IH]; cbn.
  - rewrite list_elem_of_singleton, elem_of_nil. tauto.
  - destruct (LinksV1.comes_first d y).
    + by rewrite elem_of_cons.
    + rewrite !elem_of_cons, IH. tauto.
Qed.

Lemma v1_elem_of_sort x l : x ∈ LinksV1.sort l ↔ x ∈ l.
Proof.
  unfold LinksV1.sort. induction l as [|y l IH]; cbn; [done|].
  rewrite v1_elem_of_insert_sorted, elem_of_cons, IH. done.
Qed.

(** X24. The first version of the reader never returns more than 500
    records: with a configured database it returns exactly
    [min 500 (number of records)] of them, each one a record of the
    collection, so every record is returned while there are at most 500
    and the rest is cut off without notice beyond that. *)
Theorem v1_returns_at_most_500 (uri : option string) (col : gmap string Link) :
  Js.truthy uri = true →
  ∃ l, LinksV1.handler uri col = LinksV1.Newest l
       ∧ length l = Nat.min 500 (size col)
       ∧ (∀ d, d ∈ l → ∃ u, col !! u = Some d)
       ∧ ((size col ≤ 500)%nat → ∀ u d, col !! u = Some d → d ∈ l).
Proof.
  intros Huri. unfold LinksV1.handler. rewrite Huri. cbn [negb].
  eexists. split; [reflexivity|].
  fold (docs col).
  assert (Hlen : length (docs col) = size col).
  { unfold docs. by rewrite length_map, length_map_to_list. }
  split; [|split].
  - by rewrite length_take, v1_sort_length, Hlen.
  - intros d Hd. apply LinksMore.elem_of_docs, v1_elem_of_sort.
    exact (subseteq_take _ _ d Hd).
  - intros Hsize u d Hu. rewrite take_ge by (rewrite v1_sort_length; lia).
    apply v1_elem_of_sort, LinksMore.elem_of_docs. by exists u.
Qed.

Lemma v1_returns_at_most_500_witness :
  ∃ l, LinksV1.handler (Some "mongodb://db")
         {[ "http://x.test/a" :=
              mkLink "http://x.test/a" (Some 5) None None None 3 [] [] None
                None None (Some "alpha") (Some 1000) None ]}
       = LinksV1.Newest l
       ∧ length l = 1%nat.
Proof.
  destruct (v1_returns_at_most_500 (Some "mongodb://db")
              {[ "http://x.test/a" :=
                   mkLink "http://x.test/a" (Some 5) None None None 3 [] []
                     None None None (Some "alpha") (Some 1000) None ]}
              eq_refl) as (l & H1 & H2 & _).
  exists l. split; [exact H1|]. rewrite H2. vm_compute. reflexivity.
Defined.

End LinksV1More.

(* ===================================================================== *)
(** * Further properties of the statistics, alone and after ingestion *)
(* ===================================================================== *)

Module StatsMore.
Import Store Stats Terms.


Lemma aggregate_Some startOfToday ds g :
  aggregate startOfToday ds = Some g →
  totalLinks g = length ds
  ∧ (1 ≤ length ds)%nat
  ∧ severitySum g = foldr (λ d acc, severity_score d + acc) 0 ds
  ∧ (todayLinks g ≤ length ds)%nat.
Proof.
  destruct ds as [|d0 ds]; [discriminate|]. intros H.
  set (l := d0 :: ds) in *.
  assert (Hg : g = mkGroup (length l)
                 (foldr (λ d acc, severity_score d + acc) 0 l)
                 (length (List.filter
                    (λ d, match created_at d with
                          | Some t => startOfToday <=? t
                          | None => false
                          end) l))
                 (Js.distinct (map bot_id l))
                 (Js.distinct (map seen_by_bots l))).
  { subst l. unfold aggregate in H. congruence. }
  rewrite Hg. cbn [totalLinks severitySum todayLinks].
  split; [done|]. split; [subst l; cbn; lia|]. split; [done|].
  apply filter_length_le.
Qed.

Lemma size_list_to_set_length (l : list string) :
  (size (list_to_set l : gset string) ≤ length l)%nat.
Proof.
  induction l as [|x l IH]; cbn.
  - by rewrite size_empty.
  - rewrite size_union_alt, size_singleton.
    assert (size (list_to_set l ∖ {[x]} : gset string)
            ≤ size (list_to_set l : gset string))%nat.
    { apply subseteq_size. set_solver. }
    lia.
Qed.

Lemma length_omap_le {A B} (f : A → option B) (l : list A) :
  (length (omap f l) ≤ length l)%nat.
Proof.
  induction l as [|x l IH]; cbn; [done|].
  destruct (f x); cbn; lia.
Qed.

(** X25. The totals of the statistics fit together: with a configured
    database a GET is answered with a payload whose [totalLinks] is the
    number of records, whose [todayLinks] is at most [totalLinks], whose
    average has the sum of the scores over a positive count, and whose
    [activeBots] is at most the number of identities the records hold; an
    empty collection gives all zeros. *)
Theorem stats_totals_fit (uri : option string) (startOfToday : Z)
    (col : gmap string Link) :
  Js.truthy uri = true →
  ∃ p, handler uri "GET" startOfToday col = Ok p
       ∧ p_totalLinks p = size col
       ∧ (p_todayLinks p ≤ p_totalLinks p)%nat
       ∧ (1 ≤ p_avgDen p)%nat
       ∧ p_avgNum p = foldr (λ d acc, severity_score d + acc) 0 (docs col)
       ∧ (p_activeBots p ≤ length (docs col ≫= identities_of))%nat
       ∧ (col = ∅ → p = mkPayload 0 0 0 1 0).
Proof.
  intros Huri.
  assert (Hlen : length (docs col) = size col).
  { unfold docs. by rewrite length_map, length_map_to_list. }
  unfold handler. rewrite Huri.
  change (negb (String.eqb "GET" "GET")) with false. cbn [negb].
  fold (docs col).
  destruct (aggregate startOfToday (docs col)) as [g|] eqn:Eg.
  - destruct (aggregate_Some _ _ _ Eg) as (Ht & Hpos & Hsum & Htoday).
    eexists. split; [reflexivity|].
    cbn [p_totalLinks p_todayLinks p_avgDen p_avgNum p_activeBots].
    split; [by rewrite Ht|]. split; [by rewrite Ht|].
    split; [by rewrite Ht|]. split; [exact Hsum|]. split.
    + rewrite (StatsFacts.collect_bots_union _ _ _ Eg).
      unfold union_of_identities.
      etrans; [apply size_list_to_set_length|apply length_omap_le].
    + intros ->. rewrite map_size_empty in Hlen. lia.
  - assert (Hnil : docs col = []).
    { destruct (docs col); [done|discriminate]. }
    rewrite Hnil in Hlen |- *. cbn in Hlen.
    eexists. split; [reflexivity|]. cbn. repeat split; lia.
Qed.

Lemma stats_totals_fit_witness :
  ∃ p, handler (Some "mongodb://db") "GET" 0 ∅ = Ok p
       ∧ p_totalLinks p = 0%nat ∧ p = mkPayload 0 0 0 1 0.
Proof.
  destruct (stats_totals_fit (Some "mongodb://db") 0 ∅ eq_refl)
    as (p & H1 & H2 & _ & _ & _ & _ & H7).
  exists p. split; [exact H1|]. split; [exact H2|]. by apply H7.
Defined.

End StatsMore.

Module PipelineMore.
Import Store Terms.



End PipelineMore.
